(** * SpectroPosterior: the two-peak spectroscopy posterior

    A shallow embedding of the class [SpectroPosterior] of
    [docs/source/docs_image_production.py] (lines 15-42) and the
    properties its specification states about it.

    Numbers.  The program computes with numpy [float64] values, and
    the file reads them in two ways.

    Module [B64] is the class on Rocq's primitive binary64 numbers,
    the program's own arithmetic: every operation rounds, overflows
    and underflows as numpy's does.  What the code returns at a given
    input is computed there, and a statement about the exact value of
    an output is made there.

    The definitions outside [B64] are the class in exact arithmetic: a
    finite value is the real number it stands for, and a finite
    operation neither rounds nor leaves the finite range.  The three
    non-finite values are kept, because numpy's division does not raise
    on a zero divisor: it yields an infinity or a NaN (and a
    RuntimeWarning, which is not control flow).  A real zero is read as
    [+0.0]; this is what [max(x) - min(x)] evaluates to on a constant
    array.  Statements about exceptions, lengths, signs and NaN are
    made here; a statement here about finite values says that it is in
    exact arithmetic.

    The parameter vector [theta] is taken as the sampler passes it, a
    vector of [float64].  (With plain Python numbers in [theta] a zero
    width makes [A1 / (pi*w1)] a Python division, which raises.  The
    statements about finite parameters assume non-zero widths, where
    the two readings agree; the statements that let a width be zero
    quantify over [float64] values and speak of such a vector.)

    Exceptions.  Python exceptions are results of a small error monad. *)

From Stdlib Require Import Reals Lra Psatz List Arith PeanoNat Permutation.
From Stdlib Require Floats.
Import ListNotations.
Open Scope R_scope.

(** ** Exceptions *)

Inductive exn : Type :=
| TypeError
| ValueError.

Inductive result (A : Type) : Type :=
| Ok (v : A)
| Raise (e : exn).

Arguments Ok {A} v.
Arguments Raise {A} e.

Definition bind {A B : Type} (m : result A) (k : A -> result B) : result B :=
  match m with
  | Ok v => k v
  | Raise e => Raise e
  end.

Definition rmap {A B : Type} (f : A -> B) (m : result A) : result B :=
  bind m (fun v => Ok (f v)).

Declare Scope py_scope.
Delimit Scope py_scope with py.
Notation "x <- m ;; k" := (bind m (fun x => k))
  (at level 61, m at next level, right associativity) : py_scope.
Notation "' pat <- m ;; k" := (bind m (fun v => match v with pat => k end))
  (at level 61, pat pattern, m at next level, right associativity) : py_scope.
Open Scope py_scope.

(** ** float64 values, in exact arithmetic *)

Inductive float64 : Type :=
| Fin (r : R)
| PInf
| NInf
| NaN.

Inductive sign : Type := Neg | Zero | Pos.

Definition sgn (r : R) : sign :=
  match total_order_T r 0 with
  | inleft (left _) => Neg
  | inleft (right _) => Zero
  | inright _ => Pos
  end.

Definition fneg (a : float64) : float64 :=
  match a with
  | Fin r => Fin (- r)
  | PInf => NInf
  | NInf => PInf
  | NaN => NaN
  end.

(** [inf_times s]: [+inf * v] for a finite [v] of sign [s]. *)
Definition inf_times (s : sign) : float64 :=
  match s with
  | Pos => PInf
  | Neg => NInf
  | Zero => NaN
  end.

Definition fadd (a b : float64) : float64 :=
  match a, b with
  | NaN, _ | _, NaN => NaN
  | Fin u, Fin v => Fin (u + v)
  | PInf, NInf | NInf, PInf => NaN
  | PInf, _ | _, PInf => PInf
  | NInf, _ | _, NInf => NInf
  end.

Definition fsub (a b : float64) : float64 := fadd a (fneg b).

Definition fmul (a b : float64) : float64 :=
  match a, b with
  | NaN, _ | _, NaN => NaN
  | Fin u, Fin v => Fin (u * v)
  | Fin u, PInf | PInf, Fin u => inf_times (sgn u)
  | Fin u, NInf | NInf, Fin u => fneg (inf_times (sgn u))
  | PInf, PInf | NInf, NInf => PInf
  | PInf, NInf | NInf, PInf => NInf
  end.

(** Division never raises: [v/0] is an infinity of the sign of [v], and
    [0/0] and [inf/inf] are NaN. *)
Definition fdiv (a b : float64) : float64 :=
  match a, b with
  | NaN, _ | _, NaN => NaN
  | Fin u, Fin v =>
      match sgn v with
      | Zero => inf_times (sgn u)
      | _ => Fin (u / v)
      end
  | Fin _, PInf | Fin _, NInf => Fin 0
  | PInf, Fin v =>
      match sgn v with
      | Neg => NInf
      | _ => PInf
      end
  | NInf, Fin v =>
      match sgn v with
      | Neg => PInf
      | _ => NInf
      end
  | _, _ => NaN
  end.

(** [v**2] on an array is numpy's [square], a product. *)
Definition fsquare (a : float64) : float64 := fmul a a.

(** [a > b] and [a < b]; a comparison with NaN is false. *)
Definition fgt (a b : float64) : bool :=
  match a, b with
  | NaN, _ | _, NaN => false
  | Fin u, Fin v => if Rlt_dec v u then true else false
  | PInf, PInf | NInf, NInf => false
  | PInf, _ | _, NInf => true
  | _, _ => false
  end.

Definition flt (a b : float64) : bool := fgt b a.

(** ** One-dimensional arrays *)

Abbreviation ndarray := (list float64) (only parsing).

Fixpoint zip_with (op : float64 -> float64 -> float64) (a b : ndarray) : ndarray :=
  match a, b with
  | u :: a', v :: b' => op u v :: zip_with op a' b'
  | _, _ => []
  end.

(** A binary operator on two arrays: element by element when the
    lengths agree, a length-one operand is stretched, and any other
    pair of lengths cannot be broadcast. *)
Definition broadcast (op : float64 -> float64 -> float64) (a b : ndarray)
  : result ndarray :=
  if Nat.eqb (length a) (length b) then Ok (zip_with op a b)
  else match a, b with
       | [u], _ => Ok (map (op u) b)
       | _, [v] => Ok (map (fun e => op e v) a)
       | _, _ => Raise ValueError
       end.

(** array (op) scalar and scalar (op) array *)
Definition arr_scalar (op : float64 -> float64 -> float64) (a : ndarray) (s : float64)
  : ndarray := map (fun e => op e s) a.

Definition scalar_arr (op : float64 -> float64 -> float64) (s : float64) (a : ndarray)
  : ndarray := map (op s) a.

Definition square (a : ndarray) : ndarray := map fsquare a.

(** ** Python builtins *)

(** [max(x)]: the first item, replaced by each later item that compares
    greater; [ValueError] on an empty argument. *)
Definition py_max (a : ndarray) : result float64 :=
  match a with
  | [] => Raise ValueError
  | first :: rest =>
      Ok (fold_left (fun best item => if fgt item best then item else best) rest first)
  end.

Definition py_min (a : ndarray) : result float64 :=
  match a with
  | [] => Raise ValueError
  | first :: rest =>
      Ok (fold_left (fun best item => if flt item best then item else best) rest first)
  end.

(** [sum(a)]: left to right, from the integer [0]. *)
Definition py_sum (a : ndarray) : float64 := fold_left fadd a (Fin 0).

(** A binary operator whose operands may be [None].  numpy applies the
    Python operator to each element and [None], a type error at the
    first element; an empty array has no element to fail on and the
    result is an empty array. *)
Definition with_none (u : ndarray) : result ndarray :=
  match u with
  | [] => Ok []
  | _ :: _ => Raise TypeError
  end.

Definition py_binop (op : float64 -> float64 -> float64) (a b : option ndarray)
  : result ndarray :=
  match a with
  | Some u =>
      match b with
      | Some v => broadcast op u v
      | None => with_none u
      end
  | None =>
      match b with
      | Some v => with_none v
      | None => Raise TypeError
      end
  end.

(** ** The class *)

Record SpectroPosterior : Type := {
  x : ndarray;
  y : option ndarray;
  sigma : option ndarray;
  c1 : float64;
  c2 : float64
}.

Definition pi : float64 := Fin PI.

(** [__init__] (lines 16-22) *)
Definition __init__ (wavelength : ndarray) (intensity errors : option ndarray)
  : SpectroPosterior :=
  {| x := wavelength;
     y := intensity;
     sigma := errors;
     c1 := Fin 422;
     c2 := Fin 428 |}.

(** [A1, w1, A2, w2, b0, b1 = theta] (line 35) *)
Definition unpack (theta : list float64)
  : result (float64 * float64 * float64 * float64 * float64 * float64) :=
  match theta with
  | [A1; w1; A2; w2; b0; b1] => Ok (A1, w1, A2, w2, b0, b1)
  | _ => Raise ValueError
  end.

(** [forward_model] (lines 33-42) *)
Definition forward_model (self : SpectroPosterior) (x : ndarray) (theta : list float64)
  : result ndarray :=
  '(A1, w1, A2, w2, b0, b1) <- unpack theta ;;
  let peak_1 :=
    scalar_arr fdiv (fdiv A1 (fmul pi w1))
      (scalar_arr fadd (Fin 1)
         (square (arr_scalar fdiv (arr_scalar fsub x (c1 self)) w1))) in
  let peak_2 :=
    scalar_arr fdiv (fdiv A2 (fmul pi w2))
      (scalar_arr fadd (Fin 1)
         (square (arr_scalar fdiv (arr_scalar fsub x (c2 self)) w2))) in
  hi <- py_max x ;;
  lo <- py_min x ;;
  let d := fdiv (fsub b1 b0) (fsub hi lo) in
  lo' <- py_min x ;;
  let background := arr_scalar fadd (scalar_arr fmul d x) (fsub b0 (fmul d lo')) in
  p <- broadcast fadd peak_1 peak_2 ;;
  broadcast fadd p background.

(** [prior] (lines 27-28) *)
Definition prior (self : SpectroPosterior) (theta : list float64) : float64 := Fin 0.

(** The expression of line 31 around the residuals,
    [-0.5*sum( (r / self.sigma)**2 )]. *)
Definition half_neg_chi2 (r : ndarray) (sigma : option ndarray) : result float64 :=
  q <- py_binop fdiv (Some r) sigma ;;
  Ok (fmul (Fin (-0.5)) (py_sum (square q))).

(** [likelihood] (lines 30-31) *)
Definition likelihood (self : SpectroPosterior) (theta : list float64) : result float64 :=
  m <- forward_model self (x self) theta ;;
  r <- py_binop fsub (y self) (Some m) ;;
  half_neg_chi2 r (sigma self).

(** [__call__] (lines 24-25) *)
Definition __call__ (self : SpectroPosterior) (theta : list float64) : result float64 :=
  l <- likelihood self theta ;;
  Ok (fadd l (prior self theta)).

(** ** The class in binary64 arithmetic *)

(** The same statements, line for line, on Rocq's primitive binary64
    numbers: IEEE 754 double precision with rounding to nearest even,
    the arithmetic of numpy's [float64].  Here every operation rounds,
    overflows to an infinity and underflows to zero as the program's
    does, and every definition computes. *)
Module B64.

Import PrimFloat.
Local Open Scope float_scope.

Abbreviation ndarray := (list float) (only parsing).

Definition fsquare (a : float) : float := a * a.

Fixpoint zip_with (op : float -> float -> float) (a b : ndarray) : ndarray :=
  match a, b with
  | u :: a', v :: b' => op u v :: zip_with op a' b'
  | _, _ => []
  end.

Definition broadcast (op : float -> float -> float) (a b : ndarray) : result ndarray :=
  if Nat.eqb (length a) (length b) then Ok (zip_with op a b)
  else match a, b with
       | [u], _ => Ok (map (op u) b)
       | _, [v] => Ok (map (fun e => op e v) a)
       | _, _ => Raise ValueError
       end.

Definition arr_scalar (op : float -> float -> float) (a : ndarray) (s : float)
  : ndarray := map (fun e => op e s) a.

Definition scalar_arr (op : float -> float -> float) (s : float) (a : ndarray)
  : ndarray := map (op s) a.

Definition square (a : ndarray) : ndarray := map fsquare a.

(** [item > best] is [best < item]. *)
Definition py_max (a : ndarray) : result float :=
  match a with
  | [] => Raise ValueError
  | first :: rest =>
      Ok (fold_left (fun best item => if ltb best item then item else best) rest first)
  end.

Definition py_min (a : ndarray) : result float :=
  match a with
  | [] => Raise ValueError
  | first :: rest =>
      Ok (fold_left (fun best item => if ltb item best then item else best) rest first)
  end.

Definition py_sum (a : ndarray) : float := fold_left add a 0.

Definition with_none (u : ndarray) : result ndarray :=
  match u with
  | [] => Ok []
  | _ :: _ => Raise TypeError
  end.

Definition py_binop (op : float -> float -> float) (a b : option ndarray)
  : result ndarray :=
  match a with
  | Some u =>
      match b with
      | Some v => broadcast op u v
      | None => with_none u
      end
  | None =>
      match b with
      | Some v => with_none v
      | None => Raise TypeError
      end
  end.

Record SpectroPosterior : Type := {
  x : ndarray;
  y : option ndarray;
  sigma : option ndarray;
  c1 : float;
  c2 : float
}.

(** [numpy.pi], the binary64 number nearest to pi. *)
Definition pi : float := 0x1.921fb54442d18p+1.

Definition __init__ (wavelength : ndarray) (intensity errors : option ndarray)
  : SpectroPosterior :=
  {| x := wavelength;
     y := intensity;
     sigma := errors;
     c1 := 422;
     c2 := 428 |}.

Definition unpack (theta : list float)
  : result (float * float * float * float * float * float) :=
  match theta with
  | [A1; w1; A2; w2; b0; b1] => Ok (A1, w1, A2, w2, b0, b1)
  | _ => Raise ValueError
  end.

Definition forward_model (self : SpectroPosterior) (x : ndarray) (theta : list float)
  : result ndarray :=
  '(A1, w1, A2, w2, b0, b1) <- unpack theta ;;
  let peak_1 :=
    scalar_arr div (A1 / (pi * w1))
      (scalar_arr add 1 (square (arr_scalar div (arr_scalar sub x (c1 self)) w1))) in
  let peak_2 :=
    scalar_arr div (A2 / (pi * w2))
      (scalar_arr add 1 (square (arr_scalar div (arr_scalar sub x (c2 self)) w2))) in
  hi <- py_max x ;;
  lo <- py_min x ;;
  let d := (b1 - b0) / (hi - lo) in
  lo' <- py_min x ;;
  let background := arr_scalar add (scalar_arr mul d x) (b0 - d * lo') in
  p <- broadcast add peak_1 peak_2 ;;
  broadcast add p background.

Definition prior (self : SpectroPosterior) (theta : list float) : float := 0.

Definition half_neg_chi2 (r : ndarray) (sigma : option ndarray) : result float :=
  q <- py_binop div (Some r) sigma ;;
  Ok (-0.5 * py_sum (square q)).

Definition likelihood (self : SpectroPosterior) (theta : list float) : result float :=
  m <- forward_model self (x self) theta ;;
  r <- py_binop sub (y self) (Some m) ;;
  half_neg_chi2 r (sigma self).

Definition __call__ (self : SpectroPosterior) (theta : list float) : result float :=
  l <- likelihood self theta ;;
  Ok (l + prior self theta).

(** The specification's formulas, in the same arithmetic. *)

Definition lorentzian (A w c t : float) : float :=
  (A / (pi * w)) / (1 + fsquare ((t - c) / w)).

Fixpoint chi2_terms (ys fs ss : list float) : list float :=
  match ys, fs, ss with
  | yi :: ys', fi :: fs', si :: ss' =>
      fsquare ((yi - fi) / si) :: chi2_terms ys' fs' ss'
  | _, _, _ => []
  end.

(** Concrete data: the axis and parameters of the specification's
    worked scenario, observations and errors to go with them, and the
    inputs at which rounding, overflow and underflow show. *)
Definition x_demo : ndarray := [410; 420; 430; 440].
Definition theta_demo : list float := [1000; 2; 400; 1.5; 35; 25].
Definition y_demo : ndarray := [36; 60; 55; 26].
Definition sigma_demo : ndarray := [11; 13; 12; 10].


End B64.

(** ** The specification's formulas, over the reals *)

(** The parameter vector [(A1, w1, A2, w2, b0, b1)]. *)
Record params : Type := {
  A1 : R; w1 : R;
  A2 : R; w2 : R;
  b0 : R; b1 : R
}.

Definition vec (p : params) : list float64 :=
  map Fin [A1 p; w1 p; A2 p; w2 p; b0 p; b1 p].

Definition list_max (l : list R) : R :=
  match l with
  | [] => 0
  | a :: l' => fold_left Rmax l' a
  end.

Definition list_min (l : list R) : R :=
  match l with
  | [] => 0
  | a :: l' => fold_left Rmin l' a
  end.

(** Peak k: [(A_k / (pi w_k)) / (1 + ((t - c_k)/w_k)^2)]. *)
Definition lorentzian (A w c t : R) : R :=
  (A / (PI * w)) / (1 + ((t - c) / w) ^ 2).

(** The straight line through [(lo, b0)] and [(hi, b1)]. *)
Definition line_through (lo hi u v t : R) : R :=
  let d := (v - u) / (hi - lo) in
  d * t + (u - d * lo).

Definition peaks (p : params) (t : R) : R :=
  lorentzian (A1 p) (w1 p) 422 t + lorentzian (A2 p) (w2 p) 428 t.

Definition prediction (xs : list R) (p : params) (t : R) : R :=
  peaks p t + line_through (list_min xs) (list_max xs) (b0 p) (b1 p) t.

Definition Rsum (l : list R) : R := fold_right Rplus 0 l.

(** The terms [((y_i - f_i) / sigma_i)^2], in order. *)
Fixpoint chi2_terms (ys fs ss : list R) : list R :=
  match ys, fs, ss with
  | yi :: ys', fi :: fs', si :: ss' => ((yi - fi) / si) ^ 2 :: chi2_terms ys' fs' ss'
  | _, _, _ => []
  end.


(** The same object with other errors [s] in place of [sigma]. *)
Definition with_sigma (self : SpectroPosterior) (s : option ndarray) : SpectroPosterior :=
  {| x := x self; y := y self; sigma := s; c1 := c1 self; c2 := c2 self |}.

(** ** Concrete data *)

(** The parameter vector of line 53, a four-point wavelength axis with
    observations and errors to go with it, and a constant axis. *)
Definition theta_demo : params :=
  {| A1 := 1000; w1 := 2; A2 := 400; w2 := 1.5; b0 := 35; b1 := 25 |}.

Definition x_demo : list R := [410; 420; 430; 440].
Definition y_demo : list R := [36; 60; 55; 26].
Definition sigma_demo : list R := [11; 13; 12; 10].
Definition residual_demo : list R := [3; -4; 1; 0].

Definition x_constant : list R := [410; 410].

(** ** The callers in [build_plots] *)

(** numpy's [sqrt]: NaN below zero and at [-inf]. *)
Definition fsqrt (a : float64) : float64 :=
  match a with
  | Fin r =>
      match sgn r with
      | Neg => NaN
      | _ => Fin (sqrt r)
      end
  | PInf => PInf
  | NInf | NaN => NaN
  end.

Definition np_sqrt (a : ndarray) : ndarray := map fsqrt a.

(** [a += b]: the result keeps the shape of [a], so only [b] may be
    stretched. *)
Definition iadd (a b : ndarray) : result ndarray :=
  if Nat.eqb (length a) (length b) then Ok (zip_with fadd a b)
  else match b with
       | [v] => Ok (map (fun e => fadd e v) a)
       | _ => Raise ValueError
       end.

(** Lines 52-56 and 74: the simulated observations and the object built
    on them.  The axis of line 51, the parameters of line 53 and the
    draws of [normal(size = N)] are arguments.  The array that line 56
    updates in place is the fresh one line 54 returned; nothing else
    refers to it. *)
Definition simulated_posterior (x_data : ndarray) (theta : list float64)
    (draws : ndarray) : result SpectroPosterior :=
  let P := __init__ x_data None None in
  y_data <- forward_model P x_data theta ;;
  let errors := arr_scalar fadd (np_sqrt (arr_scalar fadd y_data (Fin 1))) (Fin 5) in
  noise <- broadcast fmul draws errors ;;
  y_data' <- iadd y_data noise ;;
  Ok (__init__ x_data (Some y_data') (Some errors)).

(** Line 143: [[posterior.forward_model(x_fits, theta) for theta in sample]],
    one row per sample. *)
Fixpoint prediction_curves (posterior : SpectroPosterior) (x_fits : ndarray)
    (sample : list (list float64)) : result (list ndarray) :=
  match sample with
  | [] => Ok []
  | theta :: rest =>
      row <- forward_model posterior x_fits theta ;;
      rows <- prediction_curves posterior x_fits rest ;;
      Ok (row :: rows)
  end.

(** ** Vocabulary for the further properties *)

Definition finite (v : float64) : Prop :=
  match v with
  | Fin _ => True
  | _ => False
  end.

(** A value that is not below zero: a finite [r >= 0], [+inf], or NaN. *)
Definition not_negative (v : float64) : Prop :=
  match v with
  | Fin r => 0 <= r
  | PInf | NaN => True
  | NInf => False
  end.

(** A value that is not above zero: a finite [r <= 0], [-inf], or NaN. *)
Definition not_positive (v : float64) : Prop :=
  match v with
  | Fin r => r <= 0
  | NInf | NaN => True
  | PInf => False
  end.

(** The sign of the first (second) amplitude and width changed together. *)
Definition flip_peak_1 (p : params) : params :=
  {| A1 := - A1 p; w1 := - w1 p; A2 := A2 p; w2 := w2 p; b0 := b0 p; b1 := b1 p |}.

Definition flip_peak_2 (p : params) : params :=
  {| A1 := A1 p; w1 := w1 p; A2 := - A2 p; w2 := - w2 p; b0 := b0 p; b1 := b1 p |}.

(** [a p + b q] in the amplitudes and the background, at the widths of [p]. *)
Definition mix (a b : R) (p q : params) : params :=
  {| A1 := a * A1 p + b * A1 q; w1 := w1 p;
     A2 := a * A2 p + b * A2 q; w2 := w2 p;
     b0 := a * b0 p + b * b0 q;
     b1 := a * b1 p + b * b1 q |}.

(** Observations as triples [(x_i, y_i, sigma_i)] and the object on them. *)
Definition observation : Type := (R * R * R)%type.

Definition obs_x (o : observation) : R := fst (fst o).
Definition obs_y (o : observation) : R := snd (fst o).
Definition obs_sigma (o : observation) : R := snd o.

Definition posterior_of (obs : list observation) : SpectroPosterior :=
  __init__ (map Fin (map obs_x obs))
    (Some (map Fin (map obs_y obs)))
    (Some (map Fin (map obs_sigma obs))).

(** What lines 55-56 compute on finite data: the errors
    [sqrt(f_i + 1) + 5] and the observations [f_i + n_i * error_i], with
    [f] the prediction and [n] the draws. *)
Definition simulated_sigma (xs : list R) (p : params) : list R :=
  map (fun t => sqrt (prediction xs p t + 1) + 5) xs.

Definition simulated_y (xs : list R) (p : params) (ns : list R) : list R :=
  map (fun o => prediction xs p (fst o)
                + snd o * (sqrt (prediction xs p (fst o) + 1) + 5))
    (combine xs ns).

(** Four observations, and the same with the first two exchanged. *)
Definition obs_demo : list observation :=
  [(410, 36, 11); (420, 60, 13); (430, 55, 12); (440, 26, 10)].

Definition obs_demo_swapped : list observation :=
  [(420, 60, 13); (410, 36, 11); (430, 55, 12); (440, 26, 10)].

(** * Properties *)

(** ** Signs and finite arithmetic *)

Lemma sgn_zero : sgn 0 = Zero.
Proof.
  unfold sgn. destruct (total_order_T 0 0) as [[H | H] | H]; try reflexivity; lra.
Qed.

Lemma sgn_pos (r : R) : 0 < r -> sgn r = Pos.
Proof.
  intros Hr. unfold sgn.
  destruct (total_order_T r 0) as [[H | H] | H]; try reflexivity; lra.
Qed.

Lemma sgn_neg (r : R) : r < 0 -> sgn r = Neg.
Proof.
  intros Hr. unfold sgn.
  destruct (total_order_T r 0) as [[H | H] | H]; try reflexivity; lra.
Qed.

Lemma sgn_Zero_iff (r : R) : sgn r = Zero <-> r = 0.
Proof.
  unfold sgn.
  destruct (total_order_T r 0) as [[H | H] | H]; split; intros E;
    try discriminate; try reflexivity; try assumption; lra.
Qed.

Lemma fdiv_fin (u v : R) : v <> 0 -> fdiv (Fin u) (Fin v) = Fin (u / v).
Proof.
  intros Hv. unfold fdiv.
  destruct (sgn v) eqn:E; try reflexivity.
  apply sgn_Zero_iff in E. contradiction.
Qed.

Lemma fadd_0_r (a : float64) : fadd a (Fin 0) = a.
Proof. destruct a; simpl; try reflexivity. f_equal. lra. Qed.

(** ** max, min and sum on finite arrays *)

Lemma fold_max_fin (l : list R) (a : R) :
  fold_left (fun best item => if fgt item best then item else best) (map Fin l) (Fin a)
  = Fin (fold_left Rmax l a).
Proof.
  revert a. induction l as [| b l IH]; intros a; simpl; [reflexivity |].
  destruct (Rlt_dec a b) as [H | H].
  - rewrite IH. rewrite Rmax_right by lra. reflexivity.
  - rewrite IH. rewrite Rmax_left by lra. reflexivity.
Qed.

Lemma fold_min_fin (l : list R) (a : R) :
  fold_left (fun best item => if flt item best then item else best) (map Fin l) (Fin a)
  = Fin (fold_left Rmin l a).
Proof.
  revert a. induction l as [| b l IH]; intros a; simpl; [reflexivity |].
  destruct (Rlt_dec b a) as [H | H].
  - rewrite IH. rewrite Rmin_right by lra. reflexivity.
  - rewrite IH. rewrite Rmin_left by lra. reflexivity.
Qed.

Lemma py_max_fin (xs : list R) :
  xs <> [] -> py_max (map Fin xs) = Ok (Fin (list_max xs)).
Proof.
  destruct xs as [| a l]; [congruence |]. intros _. simpl.
  rewrite fold_max_fin. reflexivity.
Qed.

Lemma py_min_fin (xs : list R) :
  xs <> [] -> py_min (map Fin xs) = Ok (Fin (list_min xs)).
Proof.
  destruct xs as [| a l]; [congruence |]. intros _. simpl.
  rewrite fold_min_fin. reflexivity.
Qed.

(** ** Arrays computed point by point *)

Lemma zip_with_map {T : Type} (op : float64 -> float64 -> float64)
    (f g : T -> float64) (l : list T) :
  zip_with op (map f l) (map g l) = map (fun t => op (f t) (g t)) l.
Proof.
  induction l as [| t l IH]; simpl; [reflexivity |]. rewrite IH. reflexivity.
Qed.

Lemma broadcast_map {T : Type} (op : float64 -> float64 -> float64)
    (f g : T -> float64) (l : list T) :
  broadcast op (map f l) (map g l) = Ok (map (fun t => op (f t) (g t)) l).
Proof.
  unfold broadcast. rewrite !length_map, Nat.eqb_refl, zip_with_map. reflexivity.
Qed.

Lemma broadcast_same_length (op : float64 -> float64 -> float64) (a b : ndarray) :
  length a = length b -> broadcast op a b = Ok (zip_with op a b).
Proof.
  intros H. unfold broadcast. rewrite H, Nat.eqb_refl. reflexivity.
Qed.

Lemma lorentzian_denominator (w c t : R) : 1 + ((t - c) / w) * ((t - c) / w) <> 0.
Proof.
  generalize ((t - c) / w). intros a.
  pose proof (Rle_0_sqr a) as Ha. unfold Rsqr in Ha. lra.
Qed.

(** One peak of lines 37-38, on finite data and a non-zero width. *)
Lemma peak_fin (A w c : R) (xs : list R) :
  w <> 0 ->
  scalar_arr fdiv (fdiv (Fin A) (fmul pi (Fin w)))
    (scalar_arr fadd (Fin 1)
       (square (arr_scalar fdiv (arr_scalar fsub (map Fin xs) (Fin c)) (Fin w))))
  = map (fun t => Fin (lorentzian A w c t)) xs.
Proof.
  intros Hw.
  assert (Hpw : PI * w <> 0) by (apply Rmult_integral_contrapositive_currified;
                                 [apply PI_neq0 | exact Hw]).
  unfold scalar_arr, arr_scalar, square. rewrite !map_map.
  apply map_ext. intros t.
  unfold pi, fsub, fsquare. cbn [fneg fadd fmul].
  rewrite (fdiv_fin _ w Hw), (fdiv_fin _ _ Hpw). cbn [fmul fadd].
  rewrite fdiv_fin.
  - f_equal. unfold lorentzian. field. repeat split; try assumption; try apply PI_neq0.
    pose proof (Rle_0_sqr (t - c)) as Ht. pose proof (Rlt_0_sqr w Hw) as Hw2.
    unfold Rsqr in Ht, Hw2. lra.
  - replace (t + - c) with (t - c) by ring. apply lorentzian_denominator.
Qed.

(** The background of lines 39-40, on finite data with [lo <> hi]. *)
Lemma background_fin (u v lo hi : R) (xs : list R) :
  lo <> hi ->
  let d := fdiv (fsub (Fin v) (Fin u)) (fsub (Fin hi) (Fin lo)) in
  arr_scalar fadd (scalar_arr fmul d (map Fin xs)) (fsub (Fin u) (fmul d (Fin lo)))
  = map (fun t => Fin (line_through lo hi u v t)) xs.
Proof.
  intros Hne d. subst d.
  unfold fsub. cbn [fneg fadd].
  rewrite fdiv_fin by lra.
  unfold scalar_arr, arr_scalar. rewrite !map_map.
  apply map_ext. intros t. cbn [fmul fneg fadd].
  reflexivity.
Qed.

(** [forward_model] on valid input: no exception, no singularity, and
    the value the specification's formula gives at each point. *)
Lemma forward_model_fin (wl : ndarray) (ys es : option ndarray) (xs : list R) (p : params) :
  list_min xs < list_max xs -> w1 p <> 0 -> w2 p <> 0 ->
  forward_model (__init__ wl ys es) (map Fin xs) (vec p)
  = Ok (map (fun t => Fin (prediction xs p t)) xs).
Proof.
  intros Hx H1 H2.
  assert (Hne : xs <> []) by (intros ->; simpl in Hx; lra).
  unfold forward_model, vec. cbn [map unpack bind c1 c2 __init__].
  rewrite (py_max_fin xs Hne), (py_min_fin xs Hne). cbn [bind].
  rewrite (peak_fin _ _ _ xs H1), (peak_fin _ _ _ xs H2).
  rewrite (background_fin _ _ _ _ xs) by lra.
  rewrite broadcast_map. cbn [bind]. rewrite broadcast_map.
  reflexivity.
Qed.

(** ** [list_max] and [list_min] are the largest and the smallest element *)

Lemma fold_Rmax_ge (l : list R) (a : R) :
  a <= fold_left Rmax l a /\ forall t, In t l -> t <= fold_left Rmax l a.
Proof.
  revert a. induction l as [| b l IH]; intros a; simpl.
  - split; [lra | intros t []].
  - destruct (IH (Rmax a b)) as [Ha Hl]. split.
    + pose proof (Rmax_l a b). lra.
    + intros t [E | Ht]; [subst t; pose proof (Rmax_r a b); lra | auto].
Qed.

Lemma fold_Rmin_le (l : list R) (a : R) :
  fold_left Rmin l a <= a /\ forall t, In t l -> fold_left Rmin l a <= t.
Proof.
  revert a. induction l as [| b l IH]; intros a; simpl.
  - split; [lra | intros t []].
  - destruct (IH (Rmin a b)) as [Ha Hl]. split.
    + pose proof (Rmin_l a b). lra.
    + intros t [E | Ht]; [subst t; pose proof (Rmin_r a b); lra | auto].
Qed.

Lemma fold_Rmax_In (l : list R) (a : R) : In (fold_left Rmax l a) (a :: l).
Proof.
  revert a. induction l as [| b l IH]; intros a; simpl; [auto |].
  destruct (IH (Rmax a b)) as [E | H]; [| auto].
  rewrite <- E. unfold Rmax. destruct (Rle_dec a b); auto.
Qed.

Lemma fold_Rmin_In (l : list R) (a : R) : In (fold_left Rmin l a) (a :: l).
Proof.
  revert a. induction l as [| b l IH]; intros a; simpl; [auto |].
  destruct (IH (Rmin a b)) as [E | H]; [| auto].
  rewrite <- E. unfold Rmin. destruct (Rle_dec a b); auto.
Qed.

Lemma list_max_ge (xs : list R) (t : R) : In t xs -> t <= list_max xs.
Proof.
  destruct xs as [| a l]; [intros [] |]. simpl.
  destruct (fold_Rmax_ge l a) as [Ha Hl]. intros [<- | Ht]; auto.
Qed.

Lemma list_min_le (xs : list R) (t : R) : In t xs -> list_min xs <= t.
Proof.
  destruct xs as [| a l]; [intros [] |]. simpl.
  destruct (fold_Rmin_le l a) as [Ha Hl]. intros [<- | Ht]; auto.
Qed.

Lemma list_max_In (xs : list R) : xs <> [] -> In (list_max xs) xs.
Proof. destruct xs as [| a l]; [congruence |]. intros _. apply fold_Rmax_In. Qed.

Lemma list_min_In (xs : list R) : xs <> [] -> In (list_min xs) xs.
Proof. destruct xs as [| a l]; [congruence |]. intros _. apply fold_Rmin_In. Qed.

(** ** The likelihood on finite data *)

Lemma zip_with_length (op : float64 -> float64 -> float64) (a b : ndarray) :
  length a = length b -> length (zip_with op a b) = length a.
Proof.
  revert b. induction a as [| u a IH]; intros [| v b]; simpl; try discriminate; auto.
Qed.

Lemma fold_fadd_fin (l : list R) (a : R) :
  fold_left fadd (map Fin l) (Fin a) = Fin (a + Rsum l).
Proof.
  revert a. induction l as [| b l IH]; intros a; simpl.
  - f_equal. lra.
  - rewrite IH. f_equal. lra.
Qed.

Lemma py_sum_fin (l : list R) : py_sum (map Fin l) = Fin (Rsum l).
Proof. unfold py_sum. rewrite fold_fadd_fin. f_equal. lra. Qed.

Lemma chi2_array_fin (ys fs ss : list R) :
  Forall (fun s => s <> 0) ss ->
  length ys = length fs -> length ss = length fs ->
  square (zip_with fdiv (zip_with fsub (map Fin ys) (map Fin fs)) (map Fin ss))
  = map Fin (chi2_terms ys fs ss).
Proof.
  intros Hs. revert ys fs.
  unfold square.
  induction Hs as [| s ss Hs0 Hs IH]; intros [| yi ys] [| fi fs];
    cbn [length map zip_with chi2_terms]; try discriminate; try reflexivity.
  intros Hy Hl. injection Hy as Hy. injection Hl as Hl.
  rewrite (IH ys fs Hy Hl). f_equal.
  unfold fsub. cbn [fneg fadd]. rewrite (fdiv_fin _ s Hs0).
  cbn [fsquare fmul]. f_equal. unfold Rminus. ring.
Qed.

Lemma likelihood_fin (xs ys ss : list R) (p : params) :
  list_min xs < list_max xs -> w1 p <> 0 -> w2 p <> 0 ->
  length ys = length xs -> length ss = length xs ->
  Forall (fun s => s <> 0) ss ->
  likelihood (__init__ (map Fin xs) (Some (map Fin ys)) (Some (map Fin ss))) (vec p)
  = Ok (Fin (-0.5 * Rsum (chi2_terms ys (map (prediction xs p) xs) ss))).
Proof.
  intros Hx H1 H2 Hy Hs Hnz.
  unfold likelihood. cbn [x y sigma __init__].
  rewrite (forward_model_fin _ _ _ xs p Hx H1 H2). cbn [bind py_binop].
  rewrite <- (map_map (prediction xs p) Fin).
  rewrite broadcast_same_length by (rewrite !length_map; exact Hy).
  cbn [bind]. unfold half_neg_chi2. cbn [py_binop].
  rewrite broadcast_same_length
    by (rewrite zip_with_length; rewrite !length_map; congruence).
  cbn [bind].
  rewrite chi2_array_fin by (rewrite ?length_map; congruence).
  rewrite py_sum_fin. reflexivity.
Qed.

(** ** A concrete data set *)

Lemma x_demo_min : list_min x_demo = 410.
Proof.
  unfold x_demo, list_min. cbn [fold_left].
  rewrite (Rmin_left 410 420), (Rmin_left 410 430), (Rmin_left 410 440) by lra.
  reflexivity.
Qed.

Lemma x_demo_max : list_max x_demo = 440.
Proof.
  unfold x_demo, list_max. cbn [fold_left].
  rewrite (Rmax_right 410 420), (Rmax_right 420 430), (Rmax_right 430 440) by lra.
  reflexivity.
Qed.

Lemma x_demo_range : list_min x_demo < list_max x_demo.
Proof. rewrite x_demo_min, x_demo_max. lra. Qed.

Lemma theta_demo_w1 : w1 theta_demo <> 0.
Proof. simpl. lra. Qed.

Lemma theta_demo_w2 : w2 theta_demo <> 0.
Proof. simpl. lra. Qed.

(** ** The forward model *)

(** ** The posterior *)

(** C8: [prior] returns 0 for every parameter vector. *)
Theorem prior_zero (self : SpectroPosterior) (theta : list float64) :
  prior self theta = Fin 0.
Proof. reflexivity. Qed.

(** C3: the call operator returns [likelihood(theta) + prior(theta)]; an
    exception of [likelihood] passes through. *)
Theorem call_is_likelihood_plus_prior (self : SpectroPosterior) (theta : list float64) :
  match likelihood self theta with
  | Ok l => __call__ self theta = Ok (fadd l (prior self theta))
  | Raise e => __call__ self theta = Raise e
  end.
Proof.
  unfold __call__. destruct (likelihood self theta) as [l | e]; reflexivity.
Qed.

(** With the flat prior the call operator is the likelihood itself. *)
Lemma call_eq_likelihood (self : SpectroPosterior) (theta : list float64) :
  __call__ self theta = likelihood self theta.
Proof.
  unfold __call__. destruct (likelihood self theta) as [l | e]; cbn [bind].
  - unfold prior. rewrite fadd_0_r. reflexivity.
  - reflexivity.
Qed.

Lemma sigma_demo_pos : Forall (fun s => 0 < s) sigma_demo.
Proof. unfold sigma_demo. repeat constructor; lra. Qed.

Lemma Forall_pos_nonzero (ss : list R) :
  Forall (fun s => 0 < s) ss -> Forall (fun s => s <> 0) ss.
Proof. apply Forall_impl. intros s Hs. lra. Qed.

(** ** The sign of the likelihood *)

Lemma chi2_terms_nonneg (ys fs ss : list R) : 0 <= Rsum (chi2_terms ys fs ss).
Proof.
  revert fs ss. induction ys as [| yi ys IH]; intros [| fi fs] [| si ss];
    cbn [chi2_terms Rsum fold_right]; try lra.
  specialize (IH fs ss). unfold Rsum in IH.
  pose proof (pow2_ge_0 ((yi - fi) / si)). lra.
Qed.

Lemma chi2_terms_zero_iff (ys fs ss : list R) :
  Forall (fun s => s <> 0) ss ->
  length ys = length fs -> length ss = length fs ->
  Rsum (chi2_terms ys fs ss) = 0 <-> fs = ys.
Proof.
  intros Hs. revert ys fs.
  induction Hs as [| s ss Hs0 Hs IH]; intros [| yi ys] [| fi fs];
    cbn [length]; try discriminate.
  - intros _ _. cbn. tauto.
  - intros Hy Hl. injection Hy as Hy. injection Hl as Hl.
    cbn [chi2_terms Rsum fold_right].
    pose proof (chi2_terms_nonneg ys fs ss) as Hrest. unfold Rsum in Hrest.
    pose proof (pow2_ge_0 ((yi - fi) / s)) as Hhead.
    specialize (IH ys fs Hy Hl). unfold Rsum in IH.
    split.
    + intros E.
      assert (E1 : ((yi - fi) / s) ^ 2 = 0) by lra.
      assert (E2 : fold_right Rplus 0 (chi2_terms ys fs ss) = 0) by lra.
      apply IH in E2. subst fs. f_equal.
      assert (E3 : (yi - fi) / s = 0).
      { simpl in E1. rewrite Rmult_1_r in E1.
        apply Rmult_integral in E1. destruct E1; assumption. }
      assert (E4 : yi - fi = 0).
      { replace (yi - fi) with ((yi - fi) / s * s) by (field; exact Hs0).
        rewrite E3. ring. }
      lra.
    + intros E. injection E as E1 E2. subst fi.
      apply IH in E2. rewrite E2.
      replace (yi - yi) with 0 by ring. unfold Rdiv. rewrite Rmult_0_l. simpl. ring.
Qed.

(** C10, in exact arithmetic: on valid data (all [sigma_i > 0],
    [min(x) < max(x)], equal lengths) and non-zero widths, the
    likelihood and the call operator return the same value, it is at
    most 0, and it is 0 exactly when the prediction equals [y] at every
    point. *)
Theorem likelihood_nonpositive (xs ys ss : list R) (p : params) :
  list_min xs < list_max xs -> w1 p <> 0 -> w2 p <> 0 ->
  length ys = length xs -> length ss = length xs ->
  Forall (fun s => 0 < s) ss ->
  let P := __init__ (map Fin xs) (Some (map Fin ys)) (Some (map Fin ss)) in
  exists (fs : list R) (L : R),
    forward_model P (x P) (vec p) = Ok (map Fin fs) /\
    likelihood P (vec p) = Ok (Fin L) /\
    __call__ P (vec p) = Ok (Fin L) /\
    L <= 0 /\
    (L = 0 <-> fs = ys).
Proof.
  intros Hx H1 H2 Hy Hs Hpos P.
  pose proof (Forall_pos_nonzero ss Hpos) as Hnz.
  exists (map (prediction xs p) xs),
         (-0.5 * Rsum (chi2_terms ys (map (prediction xs p) xs) ss)).
  assert (HL : likelihood P (vec p)
               = Ok (Fin (-0.5 * Rsum (chi2_terms ys (map (prediction xs p) xs) ss))))
    by (apply likelihood_fin; assumption).
  pose proof (chi2_terms_nonneg ys (map (prediction xs p) xs) ss) as Hge.
  repeat split.
  - unfold P. cbn [x __init__]. rewrite map_map. apply forward_model_fin; assumption.
  - exact HL.
  - rewrite call_eq_likelihood. exact HL.
  - lra.
  - intros E. apply (chi2_terms_zero_iff ys _ ss Hnz);
      rewrite ?length_map; try congruence. lra.
  - intros E. apply (chi2_terms_zero_iff ys _ ss Hnz) in E;
      rewrite ?length_map; try congruence. rewrite E. lra.
Qed.

Lemma likelihood_nonpositive_witness :
  let P := __init__ (map Fin x_demo) (Some (map Fin y_demo)) (Some (map Fin sigma_demo)) in
  exists (fs : list R) (L : R),
    forward_model P (x P) (vec theta_demo) = Ok (map Fin fs) /\
    likelihood P (vec theta_demo) = Ok (Fin L) /\
    __call__ P (vec theta_demo) = Ok (Fin L) /\
    L <= 0 /\
    (L = 0 <-> fs = y_demo).
Proof.
  apply (likelihood_nonpositive x_demo y_demo sigma_demo theta_demo).
  - exact x_demo_range.
  - exact theta_demo_w1.
  - exact theta_demo_w2.
  - reflexivity.
  - reflexivity.
  - exact sigma_demo_pos.
Defined.

(** ** Noiseless data *)




(** ** The background at the ends of the range *)



(** ** A constant wavelength axis *)

Lemma degenerate_all_equal (xs : list R) (t : R) :
  list_min xs = list_max xs -> In t xs -> t = list_min xs.
Proof.
  intros E Ht.
  pose proof (list_min_le xs t Ht). pose proof (list_max_ge xs t Ht). lra.
Qed.

(** Lines 39-40 when [max(x) = min(x) = m]: the slope is an infinity or
    a NaN, and every element of the background is a NaN. *)
Lemma background_degenerate (u v m : R) (xs : list R) :
  (forall t, In t xs -> t = m) ->
  let d := fdiv (fsub (Fin v) (Fin u)) (fsub (Fin m) (Fin m)) in
  arr_scalar fadd (scalar_arr fmul d (map Fin xs)) (fsub (Fin u) (fmul d (Fin m)))
  = map (fun _ => NaN) xs.
Proof.
  intros Hall d. subst d.
  assert (Hz : sgn (m + - m) = Zero) by (apply sgn_Zero_iff; ring).
  assert (Hd : fdiv (fsub (Fin v) (Fin u)) (fsub (Fin m) (Fin m))
               = inf_times (sgn (v + - u))).
  { unfold fsub. cbn [fneg fadd]. unfold fdiv. rewrite Hz. reflexivity. }
  rewrite Hd.
  unfold scalar_arr, arr_scalar. rewrite !map_map.
  apply map_ext_in. intros t Ht. rewrite (Hall t Ht).
  unfold fsub.
  destruct (sgn (v + - u)); cbn [inf_times fmul];
    destruct (sgn m); reflexivity.
Qed.

Lemma forward_model_degenerate
    (wl : ndarray) (ys es : option ndarray) (xs : list R) (p : params) :
  xs <> [] -> list_min xs = list_max xs -> w1 p <> 0 -> w2 p <> 0 ->
  forward_model (__init__ wl ys es) (map Fin xs) (vec p) = Ok (map (fun _ => NaN) xs).
Proof.
  intros Hne Hx H1 H2.
  unfold forward_model, vec. cbn [map unpack bind c1 c2 __init__].
  rewrite (py_max_fin xs Hne), (py_min_fin xs Hne). cbn [bind].
  rewrite (peak_fin _ _ _ xs H1), (peak_fin _ _ _ xs H2).
  rewrite <- Hx.
  rewrite (background_degenerate _ _ (list_min xs) xs)
    by (intros t Ht; apply degenerate_all_equal; assumption).
  rewrite broadcast_map. cbn [bind]. rewrite broadcast_map.
  reflexivity.
Qed.

(** C4, as the code has it: on a non-empty [x] with [min(x) = max(x)]
    (and non-zero widths) [forward_model] raises nothing; it returns an
    array as long as [x] in which every element is NaN. *)
Theorem degenerate_range_returns_nan
    (wl : ndarray) (ys es : option ndarray) (xs : list R) (p : params) :
  xs <> [] -> list_min xs = list_max xs -> w1 p <> 0 -> w2 p <> 0 ->
  forward_model (__init__ wl ys es) (map Fin xs) (vec p) = Ok (repeat NaN (length xs)).
Proof.
  intros Hne Hx H1 H2. rewrite <- map_const.
  apply forward_model_degenerate; assumption.
Qed.

Lemma x_constant_range : list_min x_constant = list_max x_constant.
Proof.
  unfold x_constant, list_min, list_max. cbn [fold_left].
  rewrite Rmin_left, Rmax_left by lra. reflexivity.
Qed.

Lemma degenerate_range_returns_nan_witness :
  forward_model (__init__ (map Fin x_constant) None None) (map Fin x_constant)
    (vec theta_demo)
  = Ok (repeat NaN (length x_constant)).
Proof.
  apply (degenerate_range_returns_nan (map Fin x_constant) None None x_constant theta_demo).
  - discriminate.
  - exact x_constant_range.
  - exact theta_demo_w1.
  - exact theta_demo_w2.
Defined.

(** C4, as the specification words it, fails: on the constant axis
    [[410, 410]] and the parameters of line 53 the call returns
    [[nan, nan]] and raises no exception. *)
Lemma degenerate_range_no_error :
  forward_model (__init__ [Fin 410; Fin 410] None None) [Fin 410; Fin 410]
    [Fin 1000; Fin 2; Fin 400; Fin 1.5; Fin 35; Fin 25]
  = Ok [NaN; NaN] /\
  ~ exists e : exn,
      forward_model (__init__ [Fin 410; Fin 410] None None) [Fin 410; Fin 410]
        [Fin 1000; Fin 2; Fin 400; Fin 1.5; Fin 35; Fin 25]
      = Raise e.
Proof.
  assert (E : forward_model (__init__ [Fin 410; Fin 410] None None) [Fin 410; Fin 410]
                [Fin 1000; Fin 2; Fin 400; Fin 1.5; Fin 35; Fin 25]
              = Ok [NaN; NaN]).
  { apply (forward_model_degenerate [Fin 410; Fin 410] None None x_constant theta_demo).
    - discriminate.
    - exact x_constant_range.
    - exact theta_demo_w1.
    - exact theta_demo_w2. }
  split; [exact E |].
  intros [e He]. rewrite E in He. discriminate.
Qed.

(** ** Absent observations *)

(** Whatever [forward_model] returns is as long as [x], and [x] is not
    empty: [max] has raised otherwise. *)
Lemma forward_model_length (self : SpectroPosterior) (xv : ndarray)
    (theta : list float64) (m : ndarray) :
  forward_model self xv theta = Ok m -> length m = length xv /\ xv <> [].
Proof.
  unfold forward_model.
  destruct (unpack theta) as [[[[[[a1 v1] a2] v2] u0] u1] | e]; cbn [bind];
    [| discriminate].
  destruct xv as [| t xv]; [discriminate |].
  cbn [py_max py_min bind].
  rewrite broadcast_same_length
    by (unfold scalar_arr, arr_scalar, square; rewrite !length_map; reflexivity).
  cbn [bind].
  rewrite broadcast_same_length
    by (repeat (rewrite zip_with_length);
        unfold scalar_arr, arr_scalar, square; rewrite !length_map; reflexivity).
  match goal with
  | |- Ok ?a = Ok m -> _ =>
      assert (Hlen : length a = length (t :: xv))
        by (repeat (rewrite zip_with_length);
            unfold scalar_arr, arr_scalar, square; rewrite !length_map; reflexivity);
      intros E; replace m with a by congruence
  end.
  split; [exact Hlen | discriminate].
Qed.

Lemma likelihood_without_data (self : SpectroPosterior) (theta : list float64) :
  y self = None ->
  exists e : exn, likelihood self theta = Raise e /\ __call__ self theta = Raise e.
Proof.
  intros Hy.
  assert (H : exists e : exn, likelihood self theta = Raise e).
  { unfold likelihood.
    destruct (forward_model self (x self) theta) as [m | e] eqn:Hm; cbn [bind];
      [| exists e; reflexivity].
    apply forward_model_length in Hm. destruct Hm as [Hlen Hne].
    rewrite Hy. cbn [py_binop].
    destruct m as [| f m]; [| exists TypeError; reflexivity].
    destruct (x self); [congruence | discriminate]. }
  destruct H as [e He]. exists e. split; [exact He |].
  rewrite call_eq_likelihood. exact He.
Qed.

(** C5: an object built with [y] and [sigma] absent (line 52) fails in
    [likelihood] and in the call operator, for every [theta]; with valid
    [x] and [theta] the failure is the type error of the arithmetic on
    the absent data, and [forward_model] alone returns an array as long
    as [x]. *)
Theorem missing_data_fails (xs : list R) (p : params) :
  list_min xs < list_max xs -> w1 p <> 0 -> w2 p <> 0 ->
  let P := __init__ (map Fin xs) None None in
  (forall theta : list float64,
     exists e : exn, likelihood P theta = Raise e /\ __call__ P theta = Raise e) /\
  likelihood P (vec p) = Raise TypeError /\
  __call__ P (vec p) = Raise TypeError /\
  exists out : ndarray,
    forward_model P (map Fin xs) (vec p) = Ok out /\ length out = length xs.
Proof.
  intros Hx H1 H2 P.
  assert (HL : likelihood P (vec p) = Raise TypeError).
  { unfold likelihood, P. cbn [x y __init__].
    rewrite (forward_model_fin _ _ _ xs p Hx H1 H2). cbn [bind py_binop].
    destruct xs as [| t xs]; [simpl in Hx; lra | reflexivity]. }
  split; [| split; [| split]].
  - intros theta. apply likelihood_without_data. reflexivity.
  - exact HL.
  - rewrite call_eq_likelihood. exact HL.
  - exists (map (fun t => Fin (prediction xs p t)) xs). split.
    + apply forward_model_fin; assumption.
    + apply length_map.
Qed.

Lemma missing_data_fails_witness :
  let P := __init__ (map Fin x_demo) None None in
  (forall theta : list float64,
     exists e : exn, likelihood P theta = Raise e /\ __call__ P theta = Raise e) /\
  likelihood P (vec theta_demo) = Raise TypeError /\
  __call__ P (vec theta_demo) = Raise TypeError /\
  exists out : ndarray,
    forward_model P (map Fin x_demo) (vec theta_demo) = Ok out /\
    length out = length x_demo.
Proof.
  apply (missing_data_fails x_demo theta_demo).
  - exact x_demo_range.
  - exact theta_demo_w1.
  - exact theta_demo_w2.
Defined.

(** ** Rescaling the errors *)

Lemma sgn_cases (r : R) :
  (r < 0 /\ sgn r = Neg) \/ (r = 0 /\ sgn r = Zero) \/ (0 < r /\ sgn r = Pos).
Proof.
  destruct (total_order_T r 0) as [[H | H] | H].
  - left. split; [exact H | apply sgn_neg; exact H].
  - right. left. split; [exact H | subst r; apply sgn_zero].
  - right. right. split; [exact H | apply sgn_pos; exact H].
Qed.

(** Case analysis on the sign of a real that a goal inspects. *)
Ltac by_sign v :=
  let Hv := fresh "Hsign" in
  let E := fresh "Esign" in
  destruct (sgn_cases v) as [[Hv E] | [[Hv E] | [Hv E]]];
  rewrite ?E in *; cbn [inf_times fneg] in *.

Lemma zip_with_compat (op op' : float64 -> float64 -> float64)
    (f g h : float64 -> float64) (a b : ndarray) :
  (forall u v, op' (f u) (g v) = h (op u v)) ->
  zip_with op' (map f a) (map g b) = map h (zip_with op a b).
Proof.
  intros H. revert b.
  induction a as [| u a IH]; intros [| v b]; cbn [map zip_with]; try reflexivity.
  rewrite H, IH. reflexivity.
Qed.

(** An elementwise identity between two operators lifts to arrays,
    whichever way they are broadcast. *)
Lemma broadcast_compat (op op' : float64 -> float64 -> float64)
    (f g h : float64 -> float64) (a b : ndarray) :
  (forall u v, op' (f u) (g v) = h (op u v)) ->
  broadcast op' (map f a) (map g b) = rmap (map h) (broadcast op a b).
Proof.
  intros H. unfold broadcast. rewrite !length_map.
  destruct (Nat.eqb (length a) (length b)).
  - cbn [rmap bind]. rewrite (zip_with_compat op op' f g h a b H). reflexivity.
  - assert (Hl : forall u l, map (op' (f u)) (map g l) = map h (map (op u) l))
      by (intros u l; rewrite !map_map; apply map_ext; intros e; apply H).
    assert (Hr : forall v l,
               map (fun e => op' e (g v)) (map f l) = map h (map (fun e => op e v) l))
      by (intros v l; rewrite !map_map; apply map_ext; intros e; apply H).
    destruct a as [| u [| u' a]].
    + destruct b as [| v [| v' b]]; reflexivity.
    + cbn [map rmap bind]. rewrite Hl. reflexivity.
    + destruct b as [| v [| v' b]]; try reflexivity.
      cbn [rmap bind]. rewrite <- Hr. reflexivity.
Qed.

Lemma forward_model_with_sigma (self : SpectroPosterior) (s : option ndarray)
    (xv : ndarray) (theta : list float64) :
  forward_model (with_sigma self s) xv theta = forward_model self xv theta.
Proof. reflexivity. Qed.

Section PositiveFactor.

Variable c : R.
Hypothesis Hc : 0 < c.

Lemma fmul_pos_distr (a b : float64) :
  fmul (Fin c) (fadd a b) = fadd (fmul (Fin c) a) (fmul (Fin c) b).
Proof.
  pose proof (sgn_pos c Hc) as Ec.
  destruct a as [u | | |], b as [v | | |]; cbn [fadd fmul]; rewrite ?Ec;
    cbn [inf_times fneg fadd]; try reflexivity.
  f_equal. ring.
Qed.

Lemma fmul_swap_scalars (h : R) (a : float64) :
  fmul (Fin h) (fmul (Fin c) a) = fmul (Fin c) (fmul (Fin h) a).
Proof.
  pose proof (sgn_pos c Hc) as Ec.
  destruct a as [u | | |]; cbn [fmul]; rewrite ?Ec; cbn [inf_times fneg fmul];
    try reflexivity.
  - f_equal. ring.
  - by_sign h; cbn [fmul]; rewrite ?Ec; reflexivity.
  - by_sign h; cbn [fmul]; rewrite ?Ec; reflexivity.
Qed.

Lemma py_sum_scale (l : ndarray) :
  py_sum (map (fmul (Fin c)) l) = fmul (Fin c) (py_sum l).
Proof.
  unfold py_sum.
  assert (G : forall a : float64,
             fold_left fadd (map (fmul (Fin c)) l) (fmul (Fin c) a)
             = fmul (Fin c) (fold_left fadd l a)).
  { induction l as [| e l IH]; intros a; cbn [map fold_left]; [reflexivity |].
    rewrite <- fmul_pos_distr. apply IH. }
  rewrite <- G. cbn [fmul]. do 2 f_equal. ring.
Qed.

End PositiveFactor.

Section Scaling.

Variable k : R.
Hypothesis Hk : 0 < k.

Lemma sgn_scale : sgn k = Pos.
Proof. apply sgn_pos. exact Hk. Qed.

Lemma sgn_div_pos (v : R) : sgn (v / k) = sgn v.
Proof.
  assert (Hi : 0 < / k) by (apply Rinv_0_lt_compat; exact Hk).
  destruct (sgn_cases v) as [[Hv E] | [[Hv E] | [Hv E]]]; rewrite E.
  - apply sgn_neg. unfold Rdiv. nra.
  - apply sgn_Zero_iff. subst v. unfold Rdiv. ring.
  - apply sgn_pos. unfold Rdiv. nra.
Qed.

Lemma sgn_mul_pos (v : R) : sgn (k * v) = sgn v.
Proof.
  destruct (sgn_cases v) as [[Hv E] | [[Hv E] | [Hv E]]]; rewrite E.
  - apply sgn_neg. nra.
  - apply sgn_Zero_iff. subst v. ring.
  - apply sgn_pos. nra.
Qed.

Lemma inv_sqr_pos : 0 < 1 / k ^ 2.
Proof. apply Rdiv_lt_0_compat; [lra |]. simpl. nra. Qed.

(** [(a/k) / (b/k) = a/b], non-finite values included. *)
Lemma fdiv_scale_both (a b : float64) :
  fdiv (fdiv a (Fin k)) (fdiv b (Fin k)) = fdiv a b.
Proof.
  pose proof sgn_scale as Ek.
  destruct a as [u | | |], b as [v | | |]; cbn [fdiv]; rewrite ?Ek; cbn [fdiv];
    try reflexivity.
  - rewrite (sgn_div_pos v), (sgn_div_pos u).
    by_sign v; try reflexivity; f_equal; field; lra.
  - rewrite (sgn_div_pos v). reflexivity.
  - rewrite (sgn_div_pos v). reflexivity.
Qed.

(** [a / (k*b) = (a/b) / k], non-finite values included. *)
Lemma fdiv_scale_divisor (a b : float64) :
  fdiv a (fmul (Fin k) b) = fdiv (fdiv a b) (Fin k).
Proof.
  pose proof sgn_scale as Ek.
  destruct a as [u | | |], b as [v | | |]; cbn [fdiv fmul]; rewrite ?Ek;
    cbn [inf_times fneg fdiv]; rewrite ?Ek; try reflexivity.
  - rewrite (sgn_mul_pos v).
    by_sign v; cbn [fdiv]; rewrite ?Ek.
    + f_equal. field. lra.
    + by_sign u; cbn [fdiv]; rewrite ?Ek; reflexivity.
    + f_equal. field. lra.
  - f_equal. field. lra.
  - f_equal. field. lra.
  - rewrite (sgn_mul_pos v). by_sign v; cbn [fdiv]; rewrite ?Ek; reflexivity.
  - rewrite (sgn_mul_pos v). by_sign v; cbn [fdiv]; rewrite ?Ek; reflexivity.
Qed.

Lemma fsquare_div (q : float64) :
  fsquare (fdiv q (Fin k)) = fmul (Fin (1 / k ^ 2)) (fsquare q).
Proof.
  pose proof sgn_scale as Ek.
  pose proof (sgn_pos _ inv_sqr_pos) as Ec.
  destruct q as [u | | |]; unfold fsquare; cbn [fdiv fmul]; rewrite ?Ek, ?Ec;
    cbn [fmul inf_times]; try reflexivity.
  f_equal. field. lra.
Qed.

Lemma half_neg_chi2_divide_both (r : ndarray) (sg : option ndarray) :
  half_neg_chi2 (arr_scalar fdiv r (Fin k))
    (option_map (fun s => arr_scalar fdiv s (Fin k)) sg)
  = half_neg_chi2 r sg.
Proof.
  destruct sg as [s |]; [| destruct r; reflexivity].
  unfold half_neg_chi2, arr_scalar. cbn [option_map py_binop].
  rewrite (broadcast_compat fdiv fdiv (fun e => fdiv e (Fin k))
             (fun e => fdiv e (Fin k)) (fun q => q))
    by (intros u v; apply fdiv_scale_both).
  destruct (broadcast fdiv r s) as [q | e]; cbn [rmap bind]; [| reflexivity].
  rewrite map_id. reflexivity.
Qed.

Lemma half_neg_chi2_scale_sigma (r : ndarray) (sg : option ndarray) :
  half_neg_chi2 r (option_map (scalar_arr fmul (Fin k)) sg)
  = rmap (fmul (Fin (1 / k ^ 2))) (half_neg_chi2 r sg).
Proof.
  destruct sg as [s |].
  2:{ destruct r; [| reflexivity]. unfold half_neg_chi2, py_sum, square.
      cbn. do 2 f_equal. ring. }
  unfold half_neg_chi2, scalar_arr. cbn [option_map py_binop].
  rewrite <- (map_id r) at 1.
  rewrite (broadcast_compat fdiv fdiv (fun e => e) (fmul (Fin k))
             (fun q => fdiv q (Fin k)))
    by (intros u v; apply fdiv_scale_divisor).
  destruct (broadcast fdiv r s) as [q | e]; cbn [rmap bind]; [| reflexivity].
  f_equal.
  assert (Hsq : square (map (fun e => fdiv e (Fin k)) q)
                = map (fmul (Fin (1 / k ^ 2))) (square q)).
  { unfold square. rewrite !map_map. apply map_ext. intros e. apply fsquare_div. }
  rewrite Hsq, (py_sum_scale _ inv_sqr_pos).
  apply fmul_swap_scalars. exact inv_sqr_pos.
Qed.

End Scaling.

(** C6, in exact arithmetic: for [k > 0], the expression of line 31 is
    unchanged when the residuals and [sigma] are both divided by [k];
    and an object whose [sigma] is replaced by [k * sigma] has [1/k^2]
    times the likelihood, for every [theta] (an exception is the same
    exception). *)
Theorem likelihood_scale_invariance
    (k : R) (self : SpectroPosterior) (theta : list float64) (r : ndarray) :
  0 < k ->
  half_neg_chi2 (arr_scalar fdiv r (Fin k))
    (option_map (fun s => arr_scalar fdiv s (Fin k)) (sigma self))
  = half_neg_chi2 r (sigma self) /\
  likelihood (with_sigma self (option_map (scalar_arr fmul (Fin k)) (sigma self))) theta
  = rmap (fmul (Fin (1 / k ^ 2))) (likelihood self theta).
Proof.
  intros Hk. split.
  - apply half_neg_chi2_divide_both. exact Hk.
  - unfold likelihood. cbn [x y sigma with_sigma].
    rewrite forward_model_with_sigma.
    destruct (forward_model self (x self) theta) as [m | e]; cbn [rmap bind];
      [| reflexivity].
    destruct (py_binop fsub (y self) (Some m)) as [res | e]; cbn [bind];
      [| reflexivity].
    apply half_neg_chi2_scale_sigma. exact Hk.
Qed.

Lemma likelihood_scale_invariance_witness :
  let P := __init__ (map Fin x_demo) (Some (map Fin y_demo)) (Some (map Fin sigma_demo)) in
  half_neg_chi2 (arr_scalar fdiv (map Fin residual_demo) (Fin 2))
    (option_map (fun s => arr_scalar fdiv s (Fin 2)) (sigma P))
  = half_neg_chi2 (map Fin residual_demo) (sigma P) /\
  likelihood (with_sigma P (option_map (scalar_arr fmul (Fin 2)) (sigma P)))
    (vec theta_demo)
  = rmap (fmul (Fin (1 / 2 ^ 2))) (likelihood P (vec theta_demo)).
Proof.
  apply (likelihood_scale_invariance 2
           (__init__ (map Fin x_demo) (Some (map Fin y_demo)) (Some (map Fin sigma_demo)))
           (vec theta_demo) (map Fin residual_demo)).
  lra.
Defined.

(** * Further properties of the code *)

(** ** When [forward_model] raises *)

Lemma unpack_Ok (theta : list float64) :
  match unpack theta with
  | Ok _ => length theta = 6%nat
  | Raise e => e = ValueError /\ length theta <> 6%nat
  end.
Proof.
  destruct theta as [| a1 [| v1 [| a2 [| v2 [| u0 [| u1 [| extra theta]]]]]]];
    cbn [unpack length]; try (split; [reflexivity | discriminate]).
  reflexivity.
Qed.

Lemma forward_model_outcome
    (self : SpectroPosterior) (xv : ndarray) (theta : list float64) :
  match forward_model self xv theta with
  | Ok out => length theta = 6%nat /\ xv <> [] /\ length out = length xv
  | Raise e => e = ValueError /\ (length theta <> 6%nat \/ xv = [])
  end.
Proof.
  destruct (forward_model self xv theta) as [out | e] eqn:E.
  - destruct (forward_model_length self xv theta out E) as [Hlen Hne].
    repeat split; try assumption.
    pose proof (unpack_Ok theta) as Hu. unfold forward_model in E.
    destruct (unpack theta) as [t | e]; [exact Hu | discriminate].
  - pose proof (unpack_Ok theta) as Hu. unfold forward_model in E.
    destruct (unpack theta) as [[[[[[a1 v1] a2] v2] u0] u1] | e'];
      cbn [bind] in E.
    + destruct xv as [| t xv].
      * cbn [py_max bind] in E. injection E as <-. split; [reflexivity | right; reflexivity].
      * exfalso. revert E. cbn [py_max py_min bind].
        rewrite broadcast_same_length
          by (unfold scalar_arr, arr_scalar, square; rewrite !length_map; reflexivity).
        cbn [bind].
        rewrite broadcast_same_length
          by (repeat (rewrite zip_with_length);
              unfold scalar_arr, arr_scalar, square; rewrite !length_map; reflexivity).
        discriminate.
    + injection E as <-. destruct Hu as [He Hl]. split; [exact He | left; exact Hl].
Qed.

Lemma forward_model_returns
    (self : SpectroPosterior) (xv : ndarray) (theta : list float64) :
  length theta = 6%nat -> xv <> [] ->
  exists out : ndarray, forward_model self xv theta = Ok out /\ length out = length xv.
Proof.
  intros Ht Hx. pose proof (forward_model_outcome self xv theta) as H.
  destruct (forward_model self xv theta) as [out | e].
  - exists out. split; [reflexivity | apply H].
  - destruct H as [_ [H | H]]; contradiction.
Qed.

(** [forward_model] returns exactly when [theta] has six elements and
    [x] is not empty, whatever the values; the array it returns is as
    long as [x], and the only exception it raises is [ValueError]. *)
Theorem forward_model_raises_iff
    (self : SpectroPosterior) (xv : ndarray) (theta : list float64) :
  match forward_model self xv theta with
  | Ok out => length theta = 6%nat /\ xv <> [] /\ length out = length xv
  | Raise e => e = ValueError /\ (length theta <> 6%nat \/ xv = [])
  end.
Proof. apply forward_model_outcome. Qed.

(** ** The likelihood is never above zero *)

Lemma fsquare_not_negative (v : float64) : not_negative (fsquare v).
Proof.
  destruct v as [r | | |]; cbn; auto.
  pose proof (Rle_0_sqr r) as H. unfold Rsqr in H. exact H.
Qed.

Lemma fadd_not_negative (a b : float64) :
  not_negative a -> not_negative b -> not_negative (fadd a b).
Proof.
  destruct a as [u | | |], b as [v | | |]; cbn; auto. intros Hu Hv. lra.
Qed.

Lemma py_sum_not_negative (l : ndarray) :
  Forall not_negative l -> not_negative (py_sum l).
Proof.
  unfold py_sum.
  assert (G : forall a, not_negative a -> Forall not_negative l ->
                        not_negative (fold_left fadd l a)).
  { induction l as [| e l IH]; intros a Ha Hl; cbn [fold_left]; [exact Ha |].
    inversion Hl as [| ? ? He Hl']; subst.
    apply IH; [apply fadd_not_negative; assumption | exact Hl']. }
  apply G. cbn. lra.
Qed.

Lemma square_not_negative (q : ndarray) : Forall not_negative (square q).
Proof.
  unfold square. apply Forall_forall. intros v Hv.
  apply in_map_iff in Hv. destruct Hv as [e [<- _]]. apply fsquare_not_negative.
Qed.

Lemma minus_half_not_positive (v : float64) :
  not_negative v -> not_positive (fmul (Fin (-0.5)) v).
Proof.
  assert (E : sgn (-0.5) = Neg) by (apply sgn_neg; lra).
  destruct v as [r | | |]; cbn [fmul not_negative not_positive]; rewrite ?E; cbn; auto.
  intros Hr. lra.
Qed.

Lemma half_neg_chi2_not_positive (r : ndarray) (sg : option ndarray) :
  match half_neg_chi2 r sg with
  | Ok v => not_positive v
  | Raise _ => True
  end.
Proof.
  unfold half_neg_chi2.
  destruct (py_binop fdiv (Some r) sg) as [q | e]; cbn [bind]; [| exact I].
  apply minus_half_not_positive, py_sum_not_negative, square_not_negative.
Qed.

Lemma likelihood_sign (self : SpectroPosterior) (theta : list float64) :
  match likelihood self theta with
  | Ok v => not_positive v
  | Raise _ => True
  end.
Proof.
  unfold likelihood.
  destruct (forward_model self (x self) theta) as [m | e]; cbn [bind]; [| exact I].
  destruct (py_binop fsub (y self) (Some m)) as [r | e]; cbn [bind]; [| exact I].
  apply half_neg_chi2_not_positive.
Qed.

(** Whatever the data and the parameters, a value that [likelihood] or
    the call operator returns is a finite number at most 0, [-inf] or
    NaN: never a positive number, never [+inf]. *)
Theorem likelihood_never_positive (self : SpectroPosterior) (theta : list float64) :
  match likelihood self theta with
  | Ok v => not_positive v
  | Raise _ => True
  end /\
  match __call__ self theta with
  | Ok v => not_positive v
  | Raise _ => True
  end.
Proof.
  split; [| rewrite call_eq_likelihood]; apply likelihood_sign.
Qed.

(** ** Well-shaped data never raise *)

Lemma likelihood_returns (xv yv sv : ndarray) (theta : list float64) :
  xv <> [] -> length theta = 6%nat ->
  length yv = length xv -> length sv = length xv ->
  exists m : ndarray,
    forward_model (__init__ xv (Some yv) (Some sv)) xv theta = Ok m /\
    length m = length xv /\
    likelihood (__init__ xv (Some yv) (Some sv)) theta
    = Ok (fmul (Fin (-0.5))
            (py_sum (square (zip_with fdiv (zip_with fsub yv m) sv)))).
Proof.
  intros Hx Ht Hy Hs.
  destruct (forward_model_returns (__init__ xv (Some yv) (Some sv)) xv theta Ht Hx)
    as [m [Hm Hlen]].
  exists m. split; [exact Hm |]. split; [exact Hlen |].
  unfold likelihood. cbn [x y sigma __init__]. rewrite Hm. cbn [bind py_binop].
  rewrite broadcast_same_length by congruence. cbn [bind].
  unfold half_neg_chi2. cbn [py_binop].
  rewrite broadcast_same_length by (rewrite zip_with_length; congruence).
  reflexivity.
Qed.

(** With [y] and [sigma] arrays as long as a non-empty [x] and a
    [theta] of six elements, [likelihood] and the call operator raise
    nothing, whatever the values in the arrays (zero widths, zero or
    negative errors, infinities and NaN included). *)
Theorem well_shaped_never_raises (xv yv sv : ndarray) (theta : list float64) :
  xv <> [] -> length theta = 6%nat ->
  length yv = length xv -> length sv = length xv ->
  let P := __init__ xv (Some yv) (Some sv) in
  exists v : float64,
    likelihood P theta = Ok v /\ __call__ P theta = Ok v /\ not_positive v.
Proof.
  intros Hx Ht Hy Hs P.
  destruct (likelihood_returns xv yv sv theta Hx Ht Hy Hs) as (m & _ & _ & Hv).
  exists (fmul (Fin (-0.5)) (py_sum (square (zip_with fdiv (zip_with fsub yv m) sv)))).
  split; [exact Hv |]. split; [rewrite call_eq_likelihood; exact Hv |].
  apply minus_half_not_positive, py_sum_not_negative, square_not_negative.
Qed.

Lemma well_shaped_never_raises_witness :
  let P := __init__ [Fin 410; NaN] (Some [PInf; Fin 3]) (Some [Fin 0; Fin (-2)]) in
  exists v : float64,
    likelihood P [Fin 1; Fin 0; NaN; Fin 2; NInf; Fin 7] = Ok v /\
    __call__ P [Fin 1; Fin 0; NaN; Fin 2; NInf; Fin 7] = Ok v /\
    not_positive v.
Proof.
  apply (well_shaped_never_raises [Fin 410; NaN] [PInf; Fin 3] [Fin 0; Fin (-2)]
           [Fin 1; Fin 0; NaN; Fin 2; NInf; Fin 7]).
  - discriminate.
  - reflexivity.
  - reflexivity.
  - reflexivity.
Defined.

(** ** A zero error *)

Lemma fdiv_by_zero_not_finite (r : float64) : ~ finite (fdiv r (Fin 0)).
Proof.
  destruct r as [u | | |]; cbn [fdiv]; rewrite ?sgn_zero; cbn; auto.
  destruct (sgn u); cbn; auto.
Qed.

Lemma fsquare_not_finite (v : float64) :
  ~ finite v -> fsquare v = PInf \/ fsquare v = NaN.
Proof.
  destruct v as [u | | |]; cbn; intros H; auto. exfalso. apply H. exact I.
Qed.

Lemma square_div_zero (r sv : ndarray) :
  In (Fin 0) sv -> length r = length sv ->
  Exists (fun e => e = PInf \/ e = NaN) (square (zip_with fdiv r sv)).
Proof.
  unfold square. revert r.
  induction sv as [| s sv IH]; intros [| u r] Hin Hlen;
    cbn [length] in *; try discriminate; try contradiction.
  cbn [zip_with map]. destruct Hin as [-> | Hin].
  - apply Exists_cons_hd. apply fsquare_not_finite, fdiv_by_zero_not_finite.
  - apply Exists_cons_tl. apply IH; [exact Hin | congruence].
Qed.

Lemma fold_fadd_absorbed (l : ndarray) (a : float64) :
  a = PInf \/ a = NaN -> Forall not_negative l ->
  fold_left fadd l a = PInf \/ fold_left fadd l a = NaN.
Proof.
  revert a. induction l as [| e l IH]; intros a Ha Hl; cbn [fold_left]; [exact Ha |].
  inversion Hl as [| ? ? He Hl']; subst. apply IH; [| exact Hl'].
  destruct Ha as [-> | ->]; destruct e as [v | | |]; cbn in *; auto; contradiction.
Qed.

Lemma py_sum_absorbed (l : ndarray) :
  Forall not_negative l -> Exists (fun e => e = PInf \/ e = NaN) l ->
  py_sum l = PInf \/ py_sum l = NaN.
Proof.
  unfold py_sum.
  assert (G : forall a, not_negative a -> Forall not_negative l ->
                        Exists (fun e => e = PInf \/ e = NaN) l ->
                        fold_left fadd l a = PInf \/ fold_left fadd l a = NaN).
  { induction l as [| e l IH]; intros a Ha Hl Hex; [inversion Hex |].
    inversion Hl as [| ? ? He Hl']; subst. cbn [fold_left].
    inversion Hex as [? ? Hhd | ? ? Htl]; subst.
    - apply fold_fadd_absorbed; [| exact Hl'].
      destruct Hhd as [-> | ->]; destruct a as [v | | |]; cbn in *; auto; contradiction.
    - apply IH; [apply fadd_not_negative; assumption | exact Hl' | exact Htl]. }
  intros Hl Hex. apply G; [cbn; lra | exact Hl | exact Hex].
Qed.

(** A zero in [sigma] raises nothing: on well-shaped data the
    likelihood is then [-inf] or NaN, whatever the other values. *)
Theorem zero_error_not_finite (xv yv sv : ndarray) (theta : list float64) :
  xv <> [] -> length theta = 6%nat ->
  length yv = length xv -> length sv = length xv ->
  In (Fin 0) sv ->
  let P := __init__ xv (Some yv) (Some sv) in
  likelihood P theta = Ok NInf \/ likelihood P theta = Ok NaN.
Proof.
  intros Hx Ht Hy Hs Hin P.
  destruct (likelihood_returns xv yv sv theta Hx Ht Hy Hs) as (m & _ & Hlen & Hv).
  unfold P. rewrite Hv.
  assert (E : sgn (-0.5) = Neg) by (apply sgn_neg; lra).
  destruct (py_sum_absorbed (square (zip_with fdiv (zip_with fsub yv m) sv))) as [H | H].
  - apply square_not_negative.
  - apply square_div_zero; [exact Hin |]. rewrite zip_with_length; congruence.
  - left. rewrite H. cbn [fmul]. rewrite E. reflexivity.
  - right. rewrite H. reflexivity.
Qed.

Lemma zero_error_not_finite_witness :
  let P := __init__ (map Fin x_demo) (Some (map Fin y_demo))
             (Some [Fin 11; Fin 0; Fin 12; Fin 10]) in
  likelihood P (vec theta_demo) = Ok NInf \/ likelihood P (vec theta_demo) = Ok NaN.
Proof.
  apply (zero_error_not_finite (map Fin x_demo) (map Fin y_demo)
           [Fin 11; Fin 0; Fin 12; Fin 10] (vec theta_demo)).
  - discriminate.
  - reflexivity.
  - reflexivity.
  - reflexivity.
  - right. left. reflexivity.
Defined.

(** ** A zero width *)

Lemma fdiv_not_finite_nan (n d : float64) :
  ~ finite n -> d = PInf \/ d = NaN -> fdiv n d = NaN.
Proof.
  intros Hn [-> | ->]; destruct n as [u | | |]; cbn in *; auto.
  exfalso. apply Hn. exact I.
Qed.

(** Lines 37-38 at a width of zero: every element is NaN. *)
Lemma peak_zero_width (A c : float64) (xv : ndarray) :
  scalar_arr fdiv (fdiv A (fmul pi (Fin 0)))
    (scalar_arr fadd (Fin 1)
       (square (arr_scalar fdiv (arr_scalar fsub xv c) (Fin 0))))
  = map (fun _ => NaN) xv.
Proof.
  unfold scalar_arr, arr_scalar, square. rewrite !map_map.
  apply map_ext. intros t.
  apply fdiv_not_finite_nan.
  - unfold pi. cbn [fmul]. replace (PI * 0) with 0 by ring.
    apply fdiv_by_zero_not_finite.
  - destruct (fsquare_not_finite _ (fdiv_by_zero_not_finite (fsub t c))) as [-> | ->];
      cbn; auto.
Qed.

Lemma fadd_NaN_r (a : float64) : fadd a NaN = NaN.
Proof. destruct a; reflexivity. Qed.

Lemma forward_model_zero_width (self : SpectroPosterior) (xv : ndarray)
    (a1 v1 a2 v2 u0 u1 : float64) :
  xv <> [] -> v1 = Fin 0 \/ v2 = Fin 0 ->
  forward_model self xv [a1; v1; a2; v2; u0; u1] = Ok (map (fun _ => NaN) xv).
Proof.
  intros Hx Hw. unfold forward_model. cbn [unpack bind].
  destruct xv as [| t0 xv0] eqn:Exv; [congruence |]. rewrite <- Exv.
  assert (Hmax : exists hi, py_max xv = Ok hi) by (rewrite Exv; eexists; reflexivity).
  assert (Hmin : exists lo, py_min xv = Ok lo) by (rewrite Exv; eexists; reflexivity).
  destruct Hmax as [hi ->]. destruct Hmin as [lo ->]. cbn [bind].
  unfold arr_scalar at 5. unfold scalar_arr at 5.
  rewrite map_map.
  destruct Hw as [-> | ->].
  - rewrite peak_zero_width.
    unfold scalar_arr at 1 2, arr_scalar at 1 2, square at 1. rewrite !map_map.
    rewrite broadcast_map. cbn [bind]. rewrite broadcast_map.
    reflexivity.
  - rewrite peak_zero_width.
    unfold scalar_arr at 1 2, arr_scalar at 1 2, square at 1. rewrite !map_map.
    rewrite broadcast_map. cbn [bind]. rewrite broadcast_map.
    f_equal. apply map_ext. intros t. rewrite fadd_NaN_r. reflexivity.
Qed.

Lemma zip_with_nan_r (op : float64 -> float64 -> float64) (a b : ndarray) :
  (forall u, op u NaN = NaN) -> length a = length b ->
  zip_with op a (map (fun _ => NaN) b) = map (fun _ => NaN) b.
Proof.
  intros Hop. revert b.
  induction a as [| u a IH]; intros [| v b] Hlen; cbn [length] in Hlen;
    try discriminate; cbn [map zip_with]; [reflexivity |].
  rewrite Hop, IH by congruence. reflexivity.
Qed.

Lemma zip_with_nan_l (op : float64 -> float64 -> float64) (a b : ndarray) :
  (forall v, op NaN v = NaN) -> length a = length b ->
  zip_with op (map (fun _ => NaN) b) a = map (fun _ => NaN) b.
Proof.
  intros Hop. revert b.
  induction a as [| u a IH]; intros [| v b] Hlen; cbn [length] in Hlen;
    try discriminate; cbn [map zip_with]; [reflexivity |].
  rewrite Hop, IH by congruence. reflexivity.
Qed.

Lemma fold_fadd_nan (l : ndarray) : fold_left fadd l NaN = NaN.
Proof. induction l as [| e l IH]; cbn [fold_left]; [reflexivity | exact IH]. Qed.

Lemma py_sum_nan (l : ndarray) :
  l <> [] -> py_sum (map (fun _ => NaN) l) = NaN.
Proof.
  destruct l as [| e l]; [congruence |]. intros _.
  unfold py_sum. cbn [map fold_left fadd]. apply fold_fadd_nan.
Qed.

(** When one of the widths in a [float64] parameter vector is zero,
    [forward_model] raises nothing and every element of its output is
    NaN; on well-shaped data the likelihood is then NaN. *)
Theorem zero_width_gives_nan (xv yv sv : ndarray) (a1 v1 a2 v2 u0 u1 : float64) :
  xv <> [] -> v1 = Fin 0 \/ v2 = Fin 0 ->
  length yv = length xv -> length sv = length xv ->
  let P := __init__ xv (Some yv) (Some sv) in
  forward_model P xv [a1; v1; a2; v2; u0; u1] = Ok (repeat NaN (length xv)) /\
  likelihood P [a1; v1; a2; v2; u0; u1] = Ok NaN.
Proof.
  intros Hx Hw Hy Hs P.
  pose proof (forward_model_zero_width P xv a1 v1 a2 v2 u0 u1 Hx Hw) as Hm.
  split; [rewrite <- map_const; exact Hm |].
  unfold likelihood. cbn [x y sigma P __init__]. fold P. rewrite Hm.
  cbn [bind py_binop].
  rewrite broadcast_same_length by (rewrite length_map; exact Hy). cbn [bind].
  rewrite (zip_with_nan_r fsub yv xv)
    by (try exact Hy; intros u; unfold fsub; apply fadd_NaN_r).
  unfold half_neg_chi2. cbn [py_binop].
  rewrite broadcast_same_length by (rewrite length_map; congruence). cbn [bind].
  rewrite (zip_with_nan_l fdiv sv xv) by (try exact Hs; reflexivity).
  unfold square. rewrite map_map. cbn [fsquare fmul].
  rewrite py_sum_nan by exact Hx. reflexivity.
Qed.

Lemma zero_width_gives_nan_witness :
  let P := __init__ (map Fin x_demo) (Some (map Fin y_demo)) (Some (map Fin sigma_demo)) in
  forward_model P (map Fin x_demo) [Fin 1000; Fin 0; Fin 400; Fin 1.5; Fin 35; Fin 25]
  = Ok (repeat NaN (length (map Fin x_demo))) /\
  likelihood P [Fin 1000; Fin 0; Fin 400; Fin 1.5; Fin 35; Fin 25] = Ok NaN.
Proof.
  apply (zero_width_gives_nan (map Fin x_demo) (map Fin y_demo) (map Fin sigma_demo)
           (Fin 1000) (Fin 0) (Fin 400) (Fin 1.5) (Fin 35) (Fin 25)).
  - discriminate.
  - left. reflexivity.
  - reflexivity.
  - reflexivity.
Defined.

(** ** Symmetries of the model *)

Lemma likelihood_through_model (self : SpectroPosterior) (theta theta' : list float64) :
  forward_model self (x self) theta = forward_model self (x self) theta' ->
  likelihood self theta = likelihood self theta'.
Proof. intros H. unfold likelihood. rewrite H. reflexivity. Qed.

Lemma lorentzian_flip (A w c t : R) :
  w <> 0 -> lorentzian (- A) (- w) c t = lorentzian A w c t.
Proof.
  intros Hw. unfold lorentzian.
  pose proof (Rle_0_sqr (t - c)) as Ht. pose proof (Rlt_0_sqr w Hw) as Hw2.
  unfold Rsqr in Ht, Hw2.
  field. repeat split; try assumption; try apply PI_neq0; lra.
Qed.

Lemma forward_model_flip (wl : ndarray) (ys es : option ndarray)
    (xs : list R) (p : params) :
  list_min xs < list_max xs -> w1 p <> 0 -> w2 p <> 0 ->
  forward_model (__init__ wl ys es) (map Fin xs) (vec (flip_peak_1 p))
  = forward_model (__init__ wl ys es) (map Fin xs) (vec p) /\
  forward_model (__init__ wl ys es) (map Fin xs) (vec (flip_peak_2 p))
  = forward_model (__init__ wl ys es) (map Fin xs) (vec p).
Proof.
  intros Hx H1 H2.
  assert (H1' : - w1 p <> 0) by lra. assert (H2' : - w2 p <> 0) by lra.
  rewrite !forward_model_fin by assumption.
  split; f_equal; apply map_ext; intros t; f_equal;
    unfold prediction, peaks; cbn [A1 w1 A2 w2 b0 b1 flip_peak_1 flip_peak_2];
    rewrite lorentzian_flip by assumption; reflexivity.
Qed.

(** Changing the sign of an amplitude together with the sign of its
    width changes neither the prediction nor the likelihood: the data
    cannot tell [(A, w)] from [(-A, -w)]. *)
Theorem sign_flip_symmetry (xs : list R) (ys es : option ndarray) (p : params) :
  list_min xs < list_max xs -> w1 p <> 0 -> w2 p <> 0 ->
  let P := __init__ (map Fin xs) ys es in
  forward_model P (map Fin xs) (vec (flip_peak_1 p)) = forward_model P (map Fin xs) (vec p) /\
  forward_model P (map Fin xs) (vec (flip_peak_2 p)) = forward_model P (map Fin xs) (vec p) /\
  likelihood P (vec (flip_peak_1 p)) = likelihood P (vec p) /\
  likelihood P (vec (flip_peak_2 p)) = likelihood P (vec p).
Proof.
  intros Hx H1 H2 P.
  destruct (forward_model_flip (map Fin xs) ys es xs p Hx H1 H2) as [F1 F2].
  repeat split; try assumption; apply likelihood_through_model; assumption.
Qed.

Lemma sign_flip_symmetry_witness :
  let P := __init__ (map Fin x_demo) (Some (map Fin y_demo)) (Some (map Fin sigma_demo)) in
  forward_model P (map Fin x_demo) (vec (flip_peak_1 theta_demo))
  = forward_model P (map Fin x_demo) (vec theta_demo) /\
  forward_model P (map Fin x_demo) (vec (flip_peak_2 theta_demo))
  = forward_model P (map Fin x_demo) (vec theta_demo) /\
  likelihood P (vec (flip_peak_1 theta_demo)) = likelihood P (vec theta_demo) /\
  likelihood P (vec (flip_peak_2 theta_demo)) = likelihood P (vec theta_demo).
Proof.
  apply (sign_flip_symmetry x_demo (Some (map Fin y_demo)) (Some (map Fin sigma_demo))
           theta_demo).
  - exact x_demo_range.
  - exact theta_demo_w1.
  - exact theta_demo_w2.
Defined.

Lemma prediction_mix (xs : list R) (a b : R) (p q : params) (t : R) :
  list_min xs < list_max xs -> w1 p <> 0 -> w2 p <> 0 ->
  w1 q = w1 p -> w2 q = w2 p ->
  prediction xs (mix a b p q) t = a * prediction xs p t + b * prediction xs q t.
Proof.
  intros Hx H1 H2 E1 E2.
  unfold prediction, peaks, lorentzian, line_through.
  cbn [A1 w1 A2 w2 b0 b1 mix]. rewrite E1, E2.
  pose proof (Rle_0_sqr (t - 422)) as Ht1. pose proof (Rle_0_sqr (t - 428)) as Ht2.
  pose proof (Rlt_0_sqr _ H1) as Hw1. pose proof (Rlt_0_sqr _ H2) as Hw2.
  unfold Rsqr in Ht1, Ht2, Hw1, Hw2.
  field. repeat split; try assumption; try apply PI_neq0; lra.
Qed.

(** In exact arithmetic, at fixed widths the prediction is linear in
    the amplitudes and the two background levels: the three curves have
    one value per point of [x], and the curve of [a p + b q] is [a]
    times the curve of [p] plus [b] times the curve of [q], point by
    point. *)
Theorem forward_model_linear (xs : list R) (a b : R) (p q : params) :
  list_min xs < list_max xs -> w1 p <> 0 -> w2 p <> 0 ->
  w1 q = w1 p -> w2 q = w2 p ->
  let P := __init__ (map Fin xs) None None in
  exists fp fq fm : list R,
    forward_model P (map Fin xs) (vec p) = Ok (map Fin fp) /\
    forward_model P (map Fin xs) (vec q) = Ok (map Fin fq) /\
    forward_model P (map Fin xs) (vec (mix a b p q)) = Ok (map Fin fm) /\
    length fp = length xs /\ length fq = length xs /\ length fm = length xs /\
    forall (i : nat) (t : R),
      nth_error xs i = Some t ->
      exists u v : R,
        nth_error fp i = Some u /\ nth_error fq i = Some v /\
        nth_error fm i = Some (a * u + b * v).
Proof.
  intros Hx H1 H2 E1 E2 P.
  exists (map (prediction xs p) xs), (map (prediction xs q) xs),
         (map (prediction xs (mix a b p q)) xs).
  rewrite !map_map, !length_map. unfold P.
  repeat split; try (apply forward_model_fin; try assumption; congruence).
  intros i t Ht. exists (prediction xs p t), (prediction xs q t).
  rewrite !nth_error_map, Ht. cbn [option_map].
  rewrite prediction_mix by assumption. repeat split; reflexivity.
Qed.

Lemma forward_model_linear_witness :
  let P := __init__ (map Fin x_demo) None None in
  exists fp fq fm : list R,
    forward_model P (map Fin x_demo) (vec theta_demo) = Ok (map Fin fp) /\
    forward_model P (map Fin x_demo) (vec theta_demo) = Ok (map Fin fq) /\
    forward_model P (map Fin x_demo) (vec (mix 2 (-3) theta_demo theta_demo))
    = Ok (map Fin fm) /\
    length fp = length x_demo /\ length fq = length x_demo /\
    length fm = length x_demo /\
    forall (i : nat) (t : R),
      nth_error x_demo i = Some t ->
      exists u v : R,
        nth_error fp i = Some u /\ nth_error fq i = Some v /\
        nth_error fm i = Some (2 * u + -3 * v).
Proof.
  apply (forward_model_linear x_demo 2 (-3) theta_demo theta_demo).
  - exact x_demo_range.
  - exact theta_demo_w1.
  - exact theta_demo_w2.
  - reflexivity.
  - reflexivity.
Defined.

(** ** The range of the prediction *)

Lemma lorentzian_bounds (A w c t : R) :
  0 <= A -> 0 < w -> 0 <= lorentzian A w c t <= A / (PI * w).
Proof.
  intros HA Hw. unfold lorentzian.
  assert (Hpw : 0 < PI * w) by (apply Rmult_lt_0_compat; [apply PI_RGT_0 | exact Hw]).
  assert (Hh : 0 <= A / (PI * w))
    by (unfold Rdiv; apply Rmult_le_pos; [exact HA | left; apply Rinv_0_lt_compat; exact Hpw]).
  set (h := A / (PI * w)) in *.
  assert (HD : 1 <= 1 + ((t - c) / w) ^ 2) by (pose proof (pow2_ge_0 ((t - c) / w)); lra).
  set (D := 1 + ((t - c) / w) ^ 2) in *.
  assert (Hinv : 0 < / D <= 1).
  { split; [apply Rinv_0_lt_compat; lra |].
    rewrite <- Rinv_1. apply Rinv_le_contravar; lra. }
  unfold Rdiv. nra.
Qed.

Lemma line_through_bounds (lo hi u v t : R) :
  lo < hi -> lo <= t <= hi ->
  Rmin u v <= line_through lo hi u v t <= Rmax u v.
Proof.
  intros Hlh Ht.
  set (lam := (t - lo) / (hi - lo)).
  assert (Hlam : 0 <= lam <= 1).
  { unfold lam. split.
    - unfold Rdiv. apply Rmult_le_pos; [lra |].
      left. apply Rinv_0_lt_compat. lra.
    - apply (Rmult_le_reg_r (hi - lo)); [lra |].
      unfold Rdiv. rewrite Rmult_assoc, Rinv_l by lra. lra. }
  assert (E : line_through lo hi u v t = u + (v - u) * lam)
    by (unfold line_through, lam; field; lra).
  rewrite E.
  unfold Rmin, Rmax. destruct (Rle_dec u v); nra.
Qed.

(** In exact arithmetic, with amplitudes that are not negative and
    positive widths, [forward_model] returns one value per point of [x]
    and each lies between the smaller background level and the larger
    one plus the two peak heights [A_k / (pi w_k)]. *)
Theorem prediction_range (xs : list R) (p : params) :
  list_min xs < list_max xs ->
  0 <= A1 p -> 0 < w1 p -> 0 <= A2 p -> 0 < w2 p ->
  exists fs : list R,
    forward_model (__init__ (map Fin xs) None None) (map Fin xs) (vec p)
    = Ok (map Fin fs) /\
    length fs = length xs /\
    Forall (fun f =>
              Rmin (b0 p) (b1 p) <= f
              <= Rmax (b0 p) (b1 p) + A1 p / (PI * w1 p) + A2 p / (PI * w2 p)) fs.
Proof.
  intros Hx HA1 Hw1 HA2 Hw2.
  exists (map (prediction xs p) xs). split; [| split].
  - rewrite map_map. apply forward_model_fin; [exact Hx | lra | lra].
  - apply length_map.
  - apply Forall_forall. intros f Hf.
    apply in_map_iff in Hf. destruct Hf as [t [<- Ht]].
    pose proof (lorentzian_bounds (A1 p) (w1 p) 422 t HA1 Hw1) as B1.
    pose proof (lorentzian_bounds (A2 p) (w2 p) 428 t HA2 Hw2) as B2.
    pose proof (line_through_bounds (list_min xs) (list_max xs) (b0 p) (b1 p) t Hx
                  (conj (list_min_le xs t Ht) (list_max_ge xs t Ht))) as B3.
    unfold prediction, peaks. lra.
Qed.

Lemma theta_demo_positive :
  0 <= A1 theta_demo /\ 0 < w1 theta_demo /\ 0 <= A2 theta_demo /\ 0 < w2 theta_demo.
Proof. cbn. repeat split; lra. Qed.

Lemma prediction_range_witness :
  exists fs : list R,
    forward_model (__init__ (map Fin x_demo) None None) (map Fin x_demo) (vec theta_demo)
    = Ok (map Fin fs) /\
    length fs = length x_demo /\
    Forall (fun f =>
              Rmin (b0 theta_demo) (b1 theta_demo) <= f
              <= Rmax (b0 theta_demo) (b1 theta_demo)
                 + A1 theta_demo / (PI * w1 theta_demo)
                 + A2 theta_demo / (PI * w2 theta_demo)) fs.
Proof.
  apply (prediction_range x_demo theta_demo).
  - exact x_demo_range.
  - apply theta_demo_positive.
  - apply theta_demo_positive.
  - apply theta_demo_positive.
  - apply theta_demo_positive.
Defined.

(** ** The order of the observations *)

Lemma list_min_perm (xs xs' : list R) :
  Permutation xs xs' -> list_min xs = list_min xs'.
Proof.
  intros Hp. destruct xs as [| a l].
  - apply Permutation_nil in Hp. subst xs'. reflexivity.
  - assert (Hne : a :: l <> []) by discriminate.
    assert (Hne' : xs' <> []).
    { intros ->. apply Permutation_sym, Permutation_nil in Hp. discriminate. }
    apply Rle_antisym.
    + apply list_min_le. apply (Permutation_in _ (Permutation_sym Hp)).
      apply list_min_In. exact Hne'.
    + apply list_min_le. apply (Permutation_in _ Hp).
      apply list_min_In. exact Hne.
Qed.

Lemma list_max_perm (xs xs' : list R) :
  Permutation xs xs' -> list_max xs = list_max xs'.
Proof.
  intros Hp. destruct xs as [| a l].
  - apply Permutation_nil in Hp. subst xs'. reflexivity.
  - assert (Hne : a :: l <> []) by discriminate.
    assert (Hne' : xs' <> []).
    { intros ->. apply Permutation_sym, Permutation_nil in Hp. discriminate. }
    apply Rle_antisym.
    + apply list_max_ge. apply (Permutation_in _ Hp).
      apply list_max_In. exact Hne.
    + apply list_max_ge. apply (Permutation_in _ (Permutation_sym Hp)).
      apply list_max_In. exact Hne'.
Qed.

Lemma Rsum_perm (l l' : list R) : Permutation l l' -> Rsum l = Rsum l'.
Proof.
  unfold Rsum. induction 1 as [| a l l' _ IH | a b l | l l' l'' _ IH1 _ IH2];
    cbn [fold_right]; lra.
Qed.

Lemma chi2_terms_obs (g : R -> R) (obs : list observation) :
  chi2_terms (map obs_y obs) (map g (map obs_x obs)) (map obs_sigma obs)
  = map (fun o => ((obs_y o - g (obs_x o)) / obs_sigma o) ^ 2) obs.
Proof.
  induction obs as [| o obs IH]; cbn [map chi2_terms]; [reflexivity |].
  rewrite IH. reflexivity.
Qed.



Lemma likelihood_obs (obs : list observation) (p : params) :
  list_min (map obs_x obs) < list_max (map obs_x obs) ->
  w1 p <> 0 -> w2 p <> 0 ->
  Forall (fun o => obs_sigma o <> 0) obs ->
  likelihood (posterior_of obs) (vec p)
  = Ok (Fin (-0.5 * Rsum (map (fun o => ((obs_y o - prediction (map obs_x obs) p (obs_x o))
                                           / obs_sigma o) ^ 2) obs))).
Proof.
  intros Hx H1 H2 Hs. unfold posterior_of.
  rewrite likelihood_fin; try assumption; rewrite ?length_map; try reflexivity.
  - rewrite chi2_terms_obs. reflexivity.
  - apply Forall_forall. intros s Hin. apply in_map_iff in Hin.
    destruct Hin as [o [<- Ho]]. rewrite Forall_forall in Hs. apply Hs. exact Ho.
Qed.

(** The likelihood does not depend on the order in which the
    observations [(x_i, y_i, sigma_i)] are stored (rounding aside, as
    everywhere here). *)
Theorem likelihood_reorder (obs obs' : list observation) (p : params) :
  Permutation obs obs' ->
  list_min (map obs_x obs) < list_max (map obs_x obs) ->
  w1 p <> 0 -> w2 p <> 0 ->
  Forall (fun o => obs_sigma o <> 0) obs ->
  exists L : R,
    likelihood (posterior_of obs) (vec p) = Ok (Fin L) /\
    likelihood (posterior_of obs') (vec p) = Ok (Fin L).
Proof.
  intros Hp Hx H1 H2 Hs.
  pose proof (Permutation_map obs_x Hp) as Hpx.
  pose proof (list_min_perm _ _ Hpx) as Emin.
  pose proof (list_max_perm _ _ Hpx) as Emax.
  eexists. split; [apply likelihood_obs; assumption |].
  rewrite likelihood_obs; try assumption.
  - do 3 f_equal. symmetry.
    rewrite (Rsum_perm _ _
               (Permutation_map
                  (fun o => ((obs_y o - prediction (map obs_x obs) p (obs_x o))
                             / obs_sigma o) ^ 2) Hp)).
    f_equal. apply map_ext. intros o. unfold prediction. rewrite Emin, Emax. reflexivity.
  - rewrite <- Emin, <- Emax. exact Hx.
  - exact (Permutation_Forall Hp Hs).
Qed.

Lemma obs_demo_sigma : Forall (fun o => obs_sigma o <> 0) obs_demo.
Proof. unfold obs_demo. repeat constructor; cbn; lra. Qed.

Lemma likelihood_reorder_witness :
  exists L : R,
    likelihood (posterior_of obs_demo) (vec theta_demo) = Ok (Fin L) /\
    likelihood (posterior_of obs_demo_swapped) (vec theta_demo) = Ok (Fin L).
Proof.
  apply (likelihood_reorder obs_demo obs_demo_swapped theta_demo).
  - apply perm_swap.
  - exact x_demo_range.
  - exact theta_demo_w1.
  - exact theta_demo_w2.
  - exact obs_demo_sigma.
Defined.

(** ** Arrays of other lengths *)

Lemma broadcast_mismatch (op : float64 -> float64 -> float64) (a b : ndarray) :
  length a <> length b -> length a <> 1%nat -> length b <> 1%nat ->
  broadcast op a b = Raise ValueError.
Proof.
  intros Hab Ha Hb. unfold broadcast.
  destruct (Nat.eqb_spec (length a) (length b)) as [E | _]; [contradiction |].
  destruct a as [| u [| u' a]]; destruct b as [| v [| v' b]];
    cbn [length] in *; try reflexivity; congruence.
Qed.

Lemma broadcast_length (op : float64 -> float64 -> float64) (a b r : ndarray) :
  broadcast op a b = Ok r -> length b <> 1%nat -> length r = length b.
Proof.
  unfold broadcast.
  destruct (Nat.eqb_spec (length a) (length b)) as [E | _].
  - intros [= <-] _. rewrite zip_with_length; assumption.
  - destruct a as [| u [| u' a]]; destruct b as [| v [| v' b]];
      cbn [length]; intros H Hb; try discriminate; try congruence;
      injection H as <-; cbn [map length]; rewrite ?length_map; reflexivity.
Qed.

(** An [y] or a [sigma] whose length is neither that of [x] nor one
    makes [likelihood] raise [ValueError] (when [x] itself has more than
    one point; [y] is met first, whatever [sigma] is). *)
Theorem length_mismatch_raises (xv : ndarray) (theta : list float64) :
  xv <> [] -> length xv <> 1%nat -> length theta = 6%nat ->
  (forall (yv : ndarray) (sg : option ndarray),
     length yv <> length xv -> length yv <> 1%nat ->
     likelihood (__init__ xv (Some yv) sg) theta = Raise ValueError) /\
  (forall yv sv : ndarray,
     length yv = length xv -> length sv <> length xv -> length sv <> 1%nat ->
     likelihood (__init__ xv (Some yv) (Some sv)) theta = Raise ValueError).
Proof.
  intros Hx Hx1 Ht. split.
  - intros yv sg Hy Hy1.
    destruct (forward_model_returns (__init__ xv (Some yv) sg) xv theta Ht Hx)
      as [m [Hm Hlen]].
    unfold likelihood. cbn [x y sigma __init__]. rewrite Hm. cbn [bind py_binop].
    rewrite broadcast_mismatch by congruence. reflexivity.
  - intros yv sv Hy Hs Hs1.
    destruct (forward_model_returns (__init__ xv (Some yv) (Some sv)) xv theta Ht Hx)
      as [m [Hm Hlen]].
    unfold likelihood. cbn [x y sigma __init__]. rewrite Hm. cbn [bind py_binop].
    rewrite broadcast_same_length by congruence. cbn [bind].
    unfold half_neg_chi2. cbn [py_binop].
    rewrite broadcast_mismatch; [reflexivity | | | exact Hs1];
      rewrite zip_with_length; congruence.
Qed.

Lemma length_mismatch_raises_witness :
  (forall (yv : ndarray) (sg : option ndarray),
     length yv <> length (map Fin x_demo) -> length yv <> 1%nat ->
     likelihood (__init__ (map Fin x_demo) (Some yv) sg) (vec theta_demo)
     = Raise ValueError) /\
  (forall yv sv : ndarray,
     length yv = length (map Fin x_demo) ->
     length sv <> length (map Fin x_demo) -> length sv <> 1%nat ->
     likelihood (__init__ (map Fin x_demo) (Some yv) (Some sv)) (vec theta_demo)
     = Raise ValueError).
Proof.
  apply (length_mismatch_raises (map Fin x_demo) (vec theta_demo)).
  - discriminate.
  - discriminate.
  - reflexivity.
Defined.

Lemma zip_with_repeat_r (op : float64 -> float64 -> float64) (a : ndarray) (v : float64) :
  zip_with op a (repeat v (length a)) = map (fun e => op e v) a.
Proof.
  induction a as [| u a IH]; cbn [length repeat zip_with map]; [reflexivity |].
  rewrite IH. reflexivity.
Qed.

Lemma zip_with_repeat_l (op : float64 -> float64 -> float64) (u : float64) (b : ndarray) :
  zip_with op (repeat u (length b)) b = map (op u) b.
Proof.
  induction b as [| v b IH]; cbn [length repeat zip_with map]; [reflexivity |].
  rewrite IH. reflexivity.
Qed.

Lemma broadcast_stretch_r (op : float64 -> float64 -> float64) (a : ndarray) (v : float64) :
  broadcast op a [v] = broadcast op a (repeat v (length a)).
Proof.
  rewrite (broadcast_same_length op a (repeat v (length a)))
    by (rewrite repeat_length; reflexivity).
  rewrite zip_with_repeat_r. unfold broadcast.
  destruct a as [| u [| u' a]]; reflexivity.
Qed.

Lemma broadcast_stretch_l (op : float64 -> float64 -> float64) (u : float64) (b : ndarray) :
  broadcast op [u] b = broadcast op (repeat u (length b)) b.
Proof.
  rewrite (broadcast_same_length op (repeat u (length b)) b)
    by (rewrite repeat_length; reflexivity).
  rewrite zip_with_repeat_l. unfold broadcast.
  destruct b as [| v [| v' b]]; reflexivity.
Qed.

(** A [y] or a [sigma] of length one stands for the constant array: the
    likelihood is what it is with that value repeated once per point of
    [x], exceptions included. *)
Theorem length_one_is_constant
    (xv : ndarray) (yo so : option ndarray) (c : float64) (theta : list float64) :
  likelihood (__init__ xv (Some [c]) so) theta
  = likelihood (__init__ xv (Some (repeat c (length xv))) so) theta /\
  likelihood (__init__ xv yo (Some [c])) theta
  = likelihood (__init__ xv yo (Some (repeat c (length xv)))) theta.
Proof.
  split.
  - unfold likelihood. cbn [x y sigma __init__].
    change (forward_model (__init__ xv (Some (repeat c (length xv))) so) xv theta)
      with (forward_model (__init__ xv (Some [c]) so) xv theta).
    destruct (forward_model (__init__ xv (Some [c]) so) xv theta) as [m | e] eqn:Hm;
      cbn [bind py_binop]; [| reflexivity].
    apply forward_model_length in Hm. destruct Hm as [Hlen _].
    rewrite <- Hlen, broadcast_stretch_l. reflexivity.
  - unfold likelihood. cbn [x y sigma __init__].
    change (forward_model (__init__ xv yo (Some (repeat c (length xv)))) xv theta)
      with (forward_model (__init__ xv yo (Some [c])) xv theta).
    destruct (forward_model (__init__ xv yo (Some [c])) xv theta) as [m | e] eqn:Hm;
      cbn [bind]; [| reflexivity].
    apply forward_model_length in Hm. destruct Hm as [Hlen Hne].
    destruct (py_binop fsub yo (Some m)) as [r | e] eqn:Hr; cbn [bind]; [| reflexivity].
    unfold half_neg_chi2. cbn [py_binop].
    destruct (Nat.eq_dec (length xv) 1) as [E1 | N1].
    + rewrite E1. reflexivity.
    + assert (Hrl : length r = length xv).
      { destruct yo as [yv |]; cbn [py_binop] in Hr.
        - rewrite <- Hlen. apply (broadcast_length fsub yv m r Hr). congruence.
        - destruct m; [| discriminate]. destruct xv; [congruence | discriminate]. }
      rewrite <- Hrl, broadcast_stretch_r. reflexivity.
Qed.

(** ** The ensemble of predicted curves *)

(** Line 143 builds a rectangular table: when it returns there is one
    row per parameter vector and every row is as long as [x_fits]; it
    raises, with [ValueError], exactly when the sample holds a vector
    that has not six elements or is not empty while [x_fits] is. *)
Theorem prediction_curves_rectangular
    (posterior : SpectroPosterior) (x_fits : ndarray) (sample : list (list float64)) :
  match prediction_curves posterior x_fits sample with
  | Ok rows =>
      length rows = length sample /\
      Forall (fun row => length row = length x_fits) rows /\
      Forall (fun theta => length theta = 6%nat) sample /\
      (sample = [] \/ x_fits <> [])
  | Raise e =>
      e = ValueError /\
      (Exists (fun theta => length theta <> 6%nat) sample \/
       (sample <> [] /\ x_fits = []))
  end.
Proof.
  induction sample as [| theta rest IH]; cbn [prediction_curves].
  - repeat split; auto.
  - pose proof (forward_model_outcome posterior x_fits theta) as Hm.
    destruct (forward_model posterior x_fits theta) as [row | e]; cbn [bind].
    + destruct Hm as (Ht & Hx & Hlen).
      destruct (prediction_curves posterior x_fits rest) as [rows | e]; cbn [bind].
      * destruct IH as (Hn & Hrows & Hall & _).
        repeat split; cbn [length]; auto.
      * destruct IH as [He [Hex | [_ Hxe]]]; [| contradiction].
        split; [exact He |]. left. apply Exists_cons_tl. exact Hex.
    + destruct Hm as [He [Ht | Hx]]; (split; [exact He |]).
      * left. apply Exists_cons_hd. exact Ht.
      * right. split; [discriminate | exact Hx].
Qed.

(** ** The simulated observations *)

Lemma map_fst_combine_eq {A B : Type} (a : list A) (b : list B) :
  length a = length b -> map fst (combine a b) = a.
Proof.
  revert b. induction a as [| u a IH]; intros [| v b] H; cbn in *;
    try discriminate; [reflexivity |]. rewrite IH by congruence. reflexivity.
Qed.

Lemma map_snd_combine_eq {A B : Type} (a : list A) (b : list B) :
  length a = length b -> map snd (combine a b) = b.
Proof.
  revert b. induction a as [| u a IH]; intros [| v b] H; cbn in *;
    try discriminate; [reflexivity |]. rewrite IH by congruence. reflexivity.
Qed.

Lemma iadd_map {T : Type} (f g : T -> float64) (l : list T) :
  iadd (map f l) (map g l) = Ok (map (fun t => fadd (f t) (g t)) l).
Proof.
  unfold iadd. rewrite !length_map, Nat.eqb_refl, zip_with_map. reflexivity.
Qed.

Lemma fsqrt_fin (r : R) : 0 <= r -> fsqrt (Fin r) = Fin (sqrt r).
Proof.
  intros Hr. unfold fsqrt.
  destruct (sgn_cases r) as [[H E] | [[H E] | [H E]]]; rewrite E; try reflexivity. lra.
Qed.

Lemma chi2_terms_noise (g e : R * R -> R) (l : list (R * R)) :
  (forall o, In o l -> e o <> 0) ->
  chi2_terms (map (fun o => g o + snd o * e o) l) (map g l) (map e l)
  = map (fun n => n ^ 2) (map snd l).
Proof.
  induction l as [| o l IH]; intros He; cbn [map chi2_terms]; [reflexivity |].
  rewrite IH by (intros o' Ho'; apply He; right; exact Ho').
  f_equal. f_equal. field. apply He. left. reflexivity.
Qed.

Lemma simulated_posterior_fin (xs ns : list R) (p : params) :
  list_min xs < list_max xs ->
  0 <= A1 p -> 0 < w1 p -> 0 <= A2 p -> 0 < w2 p ->
  -1 <= b0 p -> -1 <= b1 p ->
  length ns = length xs ->
  simulated_posterior (map Fin xs) (vec p) (map Fin ns)
  = Ok (__init__ (map Fin xs) (Some (map Fin (simulated_y xs p ns)))
          (Some (map Fin (simulated_sigma xs p)))).
Proof.
  intros Hx HA1 Hw1 HA2 Hw2 Hb0 Hb1 Hn.
  assert (Hg : forall t, In t xs -> 0 <= prediction xs p t + 1).
  { intros t Ht.
    pose proof (lorentzian_bounds (A1 p) (w1 p) 422 t HA1 Hw1) as B1.
    pose proof (lorentzian_bounds (A2 p) (w2 p) 428 t HA2 Hw2) as B2.
    pose proof (line_through_bounds (list_min xs) (list_max xs) (b0 p) (b1 p) t Hx
                  (conj (list_min_le xs t Ht) (list_max_ge xs t Ht))) as B3.
    assert (-1 <= Rmin (b0 p) (b1 p)) by (unfold Rmin; destruct (Rle_dec _ _); lra).
    unfold prediction, peaks. lra. }
  unfold simulated_posterior, simulated_y, simulated_sigma.
  rewrite forward_model_fin by (try assumption; lra). cbn [bind].
  set (g := prediction xs p) in *.
  set (l := combine xs ns).
  assert (Hxs : map fst l = xs) by (apply map_fst_combine_eq; congruence).
  assert (Hns : map snd l = ns) by (apply map_snd_combine_eq; congruence).
  assert (Ey : map (fun t => Fin (g t)) xs = map (fun o => Fin (g (fst o))) l)
    by (rewrite <- (map_map fst (fun t => Fin (g t))), Hxs; reflexivity).
  assert (Ee : arr_scalar fadd (np_sqrt (arr_scalar fadd (map (fun t => Fin (g t)) xs) (Fin 1)))
                 (Fin 5)
               = map (fun t => Fin (sqrt (g t + 1) + 5)) xs).
  { unfold arr_scalar, np_sqrt. rewrite !map_map. apply map_ext_in. intros t Ht.
    cbn [fadd]. rewrite fsqrt_fin by (apply Hg; exact Ht). reflexivity. }
  rewrite Ee.
  assert (Ee' : map (fun t => Fin (sqrt (g t + 1) + 5)) xs
                = map (fun o => Fin (sqrt (g (fst o) + 1) + 5)) l)
    by (rewrite <- (map_map fst (fun t => Fin (sqrt (g t + 1) + 5))), Hxs; reflexivity).
  assert (En : map Fin ns = map (fun o => Fin (snd o)) l)
    by (rewrite <- (map_map snd Fin), Hns; reflexivity).
  rewrite Ey, En. rewrite Ee' at 1.
  rewrite broadcast_map. cbn [bind]. rewrite iadd_map. cbn [bind].
  do 2 f_equal.
  - f_equal. rewrite map_map. apply map_ext. intros [t n]. reflexivity.
  - rewrite map_map. reflexivity.
Qed.

(** Lines 52-56 and 74 in exact arithmetic, for an amplitude vector
    that is not negative, positive widths, background levels of at
    least -1 and one draw per point: the object is built without an
    exception, its [y] and
    [sigma] are finite arrays as long as [x], every error is at least
    5, and its likelihood at the generating parameters is
    [-0.5 * sum_i n_i^2] in the draws [n] alone. *)
Theorem simulated_data_well_formed (xs ns : list R) (p : params) :
  list_min xs < list_max xs ->
  0 <= A1 p -> 0 < w1 p -> 0 <= A2 p -> 0 < w2 p ->
  -1 <= b0 p -> -1 <= b1 p ->
  length ns = length xs ->
  exists (P : SpectroPosterior) (ys es : list R),
    simulated_posterior (map Fin xs) (vec p) (map Fin ns) = Ok P /\
    x P = map Fin xs /\ y P = Some (map Fin ys) /\ sigma P = Some (map Fin es) /\
    length ys = length xs /\ length es = length xs /\
    Forall (fun e => 5 <= e) es /\
    likelihood P (vec p) = Ok (Fin (-0.5 * Rsum (map (fun n => n ^ 2) ns))).
Proof.
  intros Hx HA1 Hw1 HA2 Hw2 Hb0 Hb1 Hn.
  exists (__init__ (map Fin xs) (Some (map Fin (simulated_y xs p ns)))
            (Some (map Fin (simulated_sigma xs p)))),
         (simulated_y xs p ns), (simulated_sigma xs p).
  assert (Hly : length (simulated_y xs p ns) = length xs).
  { unfold simulated_y. rewrite length_map, length_combine, Hn. apply Nat.min_id. }
  assert (Hls : length (simulated_sigma xs p) = length xs)
    by (unfold simulated_sigma; apply length_map).
  assert (Hpos : Forall (fun e => 5 <= e) (simulated_sigma xs p)).
  { unfold simulated_sigma. apply Forall_forall. intros e He.
    apply in_map_iff in He. destruct He as [t [<- _]].
    pose proof (sqrt_pos (prediction xs p t + 1)). lra. }
  split; [apply simulated_posterior_fin; assumption |].
  repeat split; try assumption.
  rewrite likelihood_fin; try assumption; try lra.
  2:{ revert Hpos. apply Forall_impl. intros e He. lra. }
  do 3 f_equal.
  set (l := combine xs ns).
  assert (Hxs : map fst l = xs) by (apply map_fst_combine_eq; congruence).
  assert (Hns : map snd l = ns) by (apply map_snd_combine_eq; congruence).
  unfold simulated_y, simulated_sigma. fold l.
  replace (map (prediction xs p) xs)
    with (map (fun o => prediction xs p (fst o)) l)
    by (rewrite <- (map_map fst (prediction xs p)), Hxs; reflexivity).
  replace (map (fun t => sqrt (prediction xs p t + 1) + 5) xs)
    with (map (fun o => sqrt (prediction xs p (fst o) + 1) + 5) l)
    by (rewrite <- (map_map fst (fun t => sqrt (prediction xs p t + 1) + 5)), Hxs;
        reflexivity).
  rewrite <- Hns. f_equal.
  apply (chi2_terms_noise (fun o => prediction xs p (fst o))
           (fun o => sqrt (prediction xs p (fst o) + 1) + 5)).
  intros o _. pose proof (sqrt_pos (prediction xs p (fst o) + 1)). lra.
Qed.

Lemma simulated_data_well_formed_witness :
  exists (P : SpectroPosterior) (ys es : list R),
    simulated_posterior (map Fin x_demo) (vec theta_demo) (map Fin residual_demo) = Ok P /\
    x P = map Fin x_demo /\ y P = Some (map Fin ys) /\ sigma P = Some (map Fin es) /\
    length ys = length x_demo /\ length es = length x_demo /\
    Forall (fun e => 5 <= e) es /\
    likelihood P (vec theta_demo)
    = Ok (Fin (-0.5 * Rsum (map (fun n => n ^ 2) residual_demo))).
Proof.
  apply (simulated_data_well_formed x_demo residual_demo theta_demo).
  - exact x_demo_range.
  - apply theta_demo_positive.
  - apply theta_demo_positive.
  - apply theta_demo_positive.
  - apply theta_demo_positive.
  - cbn. lra.
  - cbn. lra.
  - reflexivity.
Defined.

(** ** The likelihood on a constant wavelength axis *)

Lemma likelihood_of_nan_curve (xv yv sv : ndarray) (theta : list float64) :
  xv <> [] -> length yv = length xv -> length sv = length xv ->
  forward_model (__init__ xv (Some yv) (Some sv)) xv theta
  = Ok (map (fun _ => NaN) xv) ->
  likelihood (__init__ xv (Some yv) (Some sv)) theta = Ok NaN.
Proof.
  intros Hx Hy Hs Hm.
  unfold likelihood. cbn [x y sigma __init__]. rewrite Hm.
  cbn [bind py_binop].
  rewrite broadcast_same_length by (rewrite length_map; exact Hy). cbn [bind].
  rewrite (zip_with_nan_r fsub yv xv)
    by (try exact Hy; intros u; unfold fsub; apply fadd_NaN_r).
  unfold half_neg_chi2. cbn [py_binop].
  rewrite broadcast_same_length by (rewrite length_map; congruence). cbn [bind].
  rewrite (zip_with_nan_l fdiv sv xv) by (try exact Hs; reflexivity).
  unfold square. rewrite map_map. cbn [fsquare fmul].
  rewrite py_sum_nan by exact Hx. reflexivity.
Qed.

(** On a single point or a constant [x], with [y] and [sigma] as long
    as [x] and non-zero widths, the likelihood and the call operator
    return NaN: no exception, and not [-inf]. *)
Theorem degenerate_range_likelihood_nan (xs : list R) (yv sv : ndarray) (p : params) :
  xs <> [] -> list_min xs = list_max xs -> w1 p <> 0 -> w2 p <> 0 ->
  length yv = length xs -> length sv = length xs ->
  let P := __init__ (map Fin xs) (Some yv) (Some sv) in
  likelihood P (vec p) = Ok NaN /\ __call__ P (vec p) = Ok NaN.
Proof.
  intros Hne Hx H1 H2 Hy Hs P.
  assert (HL : likelihood P (vec p) = Ok NaN).
  { apply likelihood_of_nan_curve.
    - destruct xs; [congruence | discriminate].
    - rewrite length_map. exact Hy.
    - rewrite length_map. exact Hs.
    - rewrite map_map. apply forward_model_degenerate; assumption. }
  split; [exact HL | rewrite call_eq_likelihood; exact HL].
Qed.

Lemma degenerate_range_likelihood_nan_witness :
  let P := __init__ (map Fin x_constant) (Some [Fin 36; Fin 60])
             (Some [Fin 11; Fin 13]) in
  likelihood P (vec theta_demo) = Ok NaN /\ __call__ P (vec theta_demo) = Ok NaN.
Proof.
  apply (degenerate_range_likelihood_nan x_constant [Fin 36; Fin 60] [Fin 11; Fin 13]
           theta_demo).
  - discriminate.
  - exact x_constant_range.
  - exact theta_demo_w1.
  - exact theta_demo_w2.
  - reflexivity.
  - reflexivity.
Defined.

(** * The program in binary64 arithmetic *)

Module B64Facts.

Import PrimFloat.
Import B64.
Local Open Scope float_scope.














(** C6, as the specification words it, fails in the program's
    arithmetic: with one residual and one error of [2^-1000] and
    [k = 2^100] both quotients underflow to zero, and line 31 gives
    [0/0 = nan] where it gave [-0.5] before the division. *)
Lemma scale_invariance_underflow :
  half_neg_chi2 [0x1p-1000] (Some [0x1p-1000]) = Ok (-0.5) /\
  half_neg_chi2 (arr_scalar div [0x1p-1000] 0x1p100)
    (Some (arr_scalar div [0x1p-1000] 0x1p100)) = Ok nan.
Proof. split; reflexivity. Qed.


(** C10, as the specification words it, fails in the program's
    arithmetic: with [y = [2^-600, 0, 0]], [sigma = 1] and all
    parameters but the widths 0, the prediction is [[0, 0, 0]] and
    differs from [y], yet the squared residual underflows and the
    likelihood and the call operator return a zero. *)
Lemma likelihood_zero_underflow :
  let P := __init__ [0; 2; 4] (Some [0x1p-600; 0; 0]) (Some [1; 1; 1]) in
  exists L L' : float,
    forward_model P (x P) [0; 1; 0; 1; 0; 0] = Ok [0; 0; 0] /\
    [0; 0; 0] <> [0x1p-600; 0; 0] /\
    likelihood P [0; 1; 0; 1; 0; 0] = Ok L /\ eqb L 0 = true /\
    __call__ P [0; 1; 0; 1; 0; 0] = Ok L' /\ eqb L' 0 = true.
Proof.
  cbv zeta. do 2 eexists.
  split; [vm_compute; reflexivity |].
  split; [discriminate |].
  split; [vm_compute; reflexivity |].
  split; [reflexivity |].
  split; [vm_compute; reflexivity |]. reflexivity.
Qed.

End B64Facts.
